(** * A shallow embedding of [mysql_stubs.c]

    The OCaml/MySQL binding is a thin layer of C stubs over the MySQL
    client library.  Each stub is embedded as a function in a small
    state-and-exception monad; the client library itself is not part of
    the repository and is represented by a scripted peer whose answers are
    part of the state, so that every stub can be run on concrete inputs.
    [caml_enter_blocking_section]/[caml_leave_blocking_section] only
    release and retake the runtime lock around a library call and are not
    represented.

    Conventions:
    - OCaml strings and C buffers are [string]s (sequences of 8-bit
      characters); a C string is the sequence of its characters before the
      terminating NUL, and a possibly-NULL [char*] is an [option string];
    - machine integers are [Z] with the casts of the source written out;
      array sizes and indices that are only used to walk an array of that
      size are [nat];
    - a [string option] / ['a option] OCaml value is a Rocq [option]. *)

From Stdlib Require Import ZArith String Ascii List Lia DecimalString.
From stdpp Require Import base option list gmap.
Import ListNotations.

Local Open Scope string_scope.
Local Open Scope list_scope.
Local Open Scope Z_scope.

(** ** Exceptions and the stub monad *)

(** [mysqlfailwith]/[mysqlfailmsg] raise the exception registered as
    "mysql error"; [invalid_argument] raises OCaml's [Invalid_argument]. *)
Inductive exn : Type :=
| Mysql_error (msg : string)
| Invalid_argument (msg : string).

(** A stub returns a value, raises an OCaml exception, or has undefined
    behaviour in C (a library call on a pointer that is not a live object,
    a read outside an array). *)
Inductive outcome (A : Type) : Type :=
| Returns (a : A)
| Raises (e : exn)
| Undefined.
Arguments Returns {A} a.
Arguments Raises {A} e.
Arguments Undefined {A}.

Definition M (St A : Type) : Type := St -> outcome A * St.

Definition ret {St A} (a : A) : M St A := fun s => (Returns a, s).

Definition bind {St A B} (m : M St A) (k : A -> M St B) : M St B :=
  fun s =>
    match m s with
    | (Returns a, s') => k a s'
    | (Raises e, s') => (Raises e, s')
    | (Undefined, s') => (Undefined, s')
    end.

Definition raise {St A} (e : exn) : M St A := fun s => (Raises e, s).
Definition undefined {St A} : M St A := fun s => (Undefined, s).
Definition get {St} : M St St := fun s => (Returns s, s).
Definition put {St} (s : St) : M St unit := fun _ => (Returns tt, s).
Definition modify {St} (f : St -> St) : M St unit := fun s => (Returns tt, f s).

Declare Scope stub_scope.
Delimit Scope stub_scope with stub.
Notation "x <- m ;; k" := (bind m (fun x => k))
  (at level 100, m at next level, right associativity) : stub_scope.
Notation "m ;; k" := (bind m (fun _ => k))
  (at level 100, right associativity) : stub_scope.
Local Open Scope stub_scope.

(** [for (i = i0; i < i0 + n; i++) acc = body i acc] *)
Fixpoint for_loop {St A} (n i : nat) (body : nat -> A -> M St A) (acc : A)
  : M St A :=
  match n with
  | O => ret acc
  | S n' => acc' <- body i acc ;; for_loop n' (S i) body acc'
  end.

(** ** Formatting of error messages *)

Inductive fmt_arg : Type :=
| Arg_s (s : string)   (* a [char*] for [%s] *)
| Arg_i (n : Z)        (* an [int] for [%i] *)
| Arg_u (n : Z).       (* an unsigned value for [%u] *)

Definition decimal (n : Z) : string := NilZero.string_of_int (Z.to_int n).

(** The directives used by the stubs: [%s], [%i] and [%u]. *)
Fixpoint format (fmt : string) (args : list fmt_arg) : string :=
  match fmt with
  | EmptyString => EmptyString
  | String c EmptyString => String c EmptyString
  | String c (String d rest as tl) =>
      if Ascii.eqb c "%" then
        match d, args with
        | "s"%char, Arg_s s :: args' => String.append s (format rest args')
        | "i"%char, Arg_i n :: args' =>
            String.append (decimal n) (format rest args')
        | "u"%char, Arg_u n :: args' =>
            String.append (decimal (n mod 2 ^ 32)) (format rest args')
        | _, _ => String c (String d (format rest args))
        end
      else String c (format tl args)
  end.

(** [mysqlfailwith]: raise with the given text. *)
Definition mysqlfailwith {St A} (err : string) : M St A :=
  raise (Mysql_error err).

(** [mysqlfailmsg]: [vsnprintf] into [char buf[1024]] (at most 1023
    characters are kept), then raise. *)
Definition mysqlfailmsg {St A} (fmt : string) (args : list fmt_arg) : M St A :=
  raise (Mysql_error (substring 0 1023 (format fmt args))).

Definition invalid_argument {St A} (msg : string) : M St A :=
  raise (Invalid_argument msg).

(** ** OCaml option values built by the stubs *)

(** [val_str_option s length]: [NONE] for a NULL pointer, otherwise [SOME]
    of a fresh string holding the first [length] bytes at [s]. *)
Definition val_str_option (s : option string) (length : nat)
  : option string :=
  match s with
  | None => None
  | Some bytes => Some (substring 0 length bytes)
  end.

(** [val_some v] *)
Definition val_some {A} (v : A) : option A := Some v.

(** [strlen] of a C string. *)
Definition strlen (s : string) : nat := String.length s.

(** ** Type mapper: [type2dbty] *)

Module TypeMapper.

(** The [*_TY] tags; [dbty_tag] gives the number of each [#define]. *)
Inductive dbty : Type :=
| INT_TY | FLOAT_TY | STRING_TY | SET_TY | ENUM_TY | DATETIME_TY
| DATE_TY | TIME_TY | YEAR_TY | TIMESTAMP_TY | UNKNOWN_TY | INT64_TY
| BLOB_TY | DECIMAL_TY.

Definition dbty_tag (t : dbty) : Z :=
  match t with
  | INT_TY => 0 | FLOAT_TY => 1 | STRING_TY => 2 | SET_TY => 3
  | ENUM_TY => 4 | DATETIME_TY => 5 | DATE_TY => 6 | TIME_TY => 7
  | YEAR_TY => 8 | TIMESTAMP_TY => 9 | UNKNOWN_TY => 10
  | INT64_TY => 11 | BLOB_TY => 12 | DECIMAL_TY => 13
  end.

(** The [FIELD_TYPE_*] codes come from the client library's headers,
    which are not in the repository: they are a parameter of the
    mapper. *)
Record field_types : Type := {
  FIELD_TYPE_DECIMAL : Z;
  FIELD_TYPE_TINY : Z;
  FIELD_TYPE_SHORT : Z;
  FIELD_TYPE_LONG : Z;
  FIELD_TYPE_FLOAT : Z;
  FIELD_TYPE_DOUBLE : Z;
  FIELD_TYPE_NULL : Z;
  FIELD_TYPE_TIMESTAMP : Z;
  FIELD_TYPE_LONGLONG : Z;
  FIELD_TYPE_INT24 : Z;
  FIELD_TYPE_DATE : Z;
  FIELD_TYPE_TIME : Z;
  FIELD_TYPE_DATETIME : Z;
  FIELD_TYPE_YEAR : Z;
  FIELD_TYPE_NEWDATE : Z;
  FIELD_TYPE_ENUM : Z;
  FIELD_TYPE_SET : Z;
  FIELD_TYPE_TINY_BLOB : Z;
  FIELD_TYPE_MEDIUM_BLOB : Z;
  FIELD_TYPE_LONG_BLOB : Z;
  FIELD_TYPE_BLOB : Z;
  FIELD_TYPE_VAR_STRING : Z;
  FIELD_TYPE_STRING : Z
}.

(** The entries of [map] before the [-1] terminator. *)
Definition entries (ft : field_types) : list (Z * dbty) :=
  [ (FIELD_TYPE_DECIMAL ft, DECIMAL_TY);
    (FIELD_TYPE_TINY ft, INT_TY);
    (FIELD_TYPE_SHORT ft, INT_TY);
    (FIELD_TYPE_LONG ft, INT_TY);
    (FIELD_TYPE_FLOAT ft, FLOAT_TY);
    (FIELD_TYPE_DOUBLE ft, FLOAT_TY);
    (FIELD_TYPE_NULL ft, STRING_TY);
    (FIELD_TYPE_TIMESTAMP ft, TIMESTAMP_TY);
    (FIELD_TYPE_LONGLONG ft, INT64_TY);
    (FIELD_TYPE_INT24 ft, INT_TY);
    (FIELD_TYPE_DATE ft, DATE_TY);
    (FIELD_TYPE_TIME ft, TIME_TY);
    (FIELD_TYPE_DATETIME ft, DATETIME_TY);
    (FIELD_TYPE_YEAR ft, YEAR_TY);
    (FIELD_TYPE_NEWDATE ft, UNKNOWN_TY);
    (FIELD_TYPE_ENUM ft, ENUM_TY);
    (FIELD_TYPE_SET ft, SET_TY);
    (FIELD_TYPE_TINY_BLOB ft, BLOB_TY);
    (FIELD_TYPE_MEDIUM_BLOB ft, BLOB_TY);
    (FIELD_TYPE_LONG_BLOB ft, BLOB_TY);
    (FIELD_TYPE_BLOB ft, BLOB_TY);
    (FIELD_TYPE_VAR_STRING ft, STRING_TY);
    (FIELD_TYPE_STRING ft, STRING_TY) ].

(** The static table [map[]] of [type2dbty]. *)
Definition map (ft : field_types) : list (Z * dbty) :=
  entries ft ++ [ (-1, UNKNOWN_TY) ].

(** [for (i=0; map[i].mysql != -1 && map[i].mysql != type; i++);
    return map[i].caml;] on the remainder of the table.  Running off
    the end of the array is [None]. *)
Fixpoint scan (tbl : list (Z * dbty)) (type : Z) : option dbty :=
  match tbl with
  | [] => None
  | (mysql, caml) :: tl =>
      if (mysql =? -1) || (mysql =? type) then Some caml
      else scan tl type
  end.

Definition type2dbty (ft : field_types) (type : Z) : option dbty :=
  scan (map ft) type.

Definition codes (ft : field_types) : list Z := (entries ft).*1.

(** The values of [enum enum_field_types] in the MySQL headers. *)
Definition mysql_com_h : field_types :=
  {| FIELD_TYPE_DECIMAL := 0; FIELD_TYPE_TINY := 1;
     FIELD_TYPE_SHORT := 2; FIELD_TYPE_LONG := 3;
     FIELD_TYPE_FLOAT := 4; FIELD_TYPE_DOUBLE := 5;
     FIELD_TYPE_NULL := 6; FIELD_TYPE_TIMESTAMP := 7;
     FIELD_TYPE_LONGLONG := 8; FIELD_TYPE_INT24 := 9;
     FIELD_TYPE_DATE := 10; FIELD_TYPE_TIME := 11;
     FIELD_TYPE_DATETIME := 12; FIELD_TYPE_YEAR := 13;
     FIELD_TYPE_NEWDATE := 14; FIELD_TYPE_ENUM := 247;
     FIELD_TYPE_SET := 248; FIELD_TYPE_TINY_BLOB := 249;
     FIELD_TYPE_MEDIUM_BLOB := 250; FIELD_TYPE_LONG_BLOB := 251;
     FIELD_TYPE_BLOB := 252; FIELD_TYPE_VAR_STRING := 253;
     FIELD_TYPE_STRING := 254 |}.

End TypeMapper.


(** ** Integer conversions of the C code *)

Definition to_int64 (z : Z) : Z := (z + 2 ^ 63) mod 2 ^ 64 - 2 ^ 63.
Definition to_uint64 (z : Z) : Z := z mod 2 ^ 64.
Definition to_int32 (z : Z) : Z := (z + 2 ^ 31) mod 2 ^ 32 - 2 ^ 31.

(** ** Buffered result sets: [db_fetch], [db_to_row], [db_size], [db_fields] *)

Module ResultSet.

(** A [MYSQL_ROW] is an array of column pointers, NULL for SQL NULL. *)
Abbreviation MYSQL_ROW := (list (option string)) (only parsing).

(** The part of the library's [MYSQL_RES] the stubs observe: the column
    count, the buffered rows, the position of the row cursor and the row
    handed out last. *)
Record MYSQL_RES : Type := {
  field_count : nat;
  data : list MYSQL_ROW;
  data_cursor : nat;
  current_row : option MYSQL_ROW
}.

(** Every buffered row has one entry per column. *)
Definition well_formed (r : MYSQL_RES) : Prop :=
  Forall (fun row => length row = field_count r) (data r).

Definition mysql_num_fields (r : MYSQL_RES) : nat := field_count r.

(** [my_ulonglong mysql_num_rows(res)] *)
Definition mysql_num_rows (r : MYSQL_RES) : Z := Z.of_nat (length (data r)).

(** [mysql_fetch_row] on a stored result: hand out the row under the
    cursor and move the cursor to the next one; NULL at the end. *)
Definition mysql_fetch_row (r : MYSQL_RES) : option MYSQL_ROW * MYSQL_RES :=
  match data r !! data_cursor r with
  | Some row =>
      (Some row,
       {| field_count := field_count r; data := data r;
          data_cursor := S (data_cursor r); current_row := Some row |})
  | None =>
      (None,
       {| field_count := field_count r; data := data r;
          data_cursor := data_cursor r; current_row := None |})
  end.

(** [mysql_fetch_lengths]: the column lengths of the current row, 0 for
    a NULL column; NULL when there is no current row. *)
Definition mysql_fetch_lengths (r : MYSQL_RES) : option (list nat) :=
  match current_row r with
  | Some row =>
      Some (List.map (fun c => match c with
                               | Some bytes => String.length bytes
                               | None => O
                               end) row)
  | None => None
  end.

(** [mysql_data_seek(res, row)] *)
Definition mysql_data_seek (r : MYSQL_RES) (row : Z) : MYSQL_RES :=
  {| field_count := field_count r; data := data r;
     data_cursor := Z.to_nat row; current_row := None |}.

(** The state of these stubs is [RESval(result)]: NULL, or the result
    object the custom block points to. *)
Abbreviation RESval := (option MYSQL_RES) (only parsing).

(** [alloc_tuple(n)]: a block of [n] fields holding [Val_unit], which
    is the same word as [NONE]. *)
Definition alloc_tuple {A} (n : nat) : list (option A) := replicate n None.

Definition db_fetch : M RESval (option (list (option string))) :=
  res <- get ;;
  match res with
  | None => mysqlfailwith "Mysql.fetch: result did not return fetchable data"
  | Some r =>
      let n := mysql_num_fields r in
      if (n =? 0)%nat then mysqlfailwith "Mysql.fetch: no columns"
      else
        let '(row, r') := mysql_fetch_row r in
        put (Some r') ;;
        match row with
        | None => ret None
        | Some row =>
            match mysql_fetch_lengths r' with
            | None => undefined
            | Some length =>
                fields <-
                  for_loop n 0
                    (fun i fields =>
                       match row !! i, length !! i with
                       | Some col, Some len =>
                           ret (<[i := val_str_option col len]> fields)
                       | _, _ => undefined
                       end)
                    (alloc_tuple n) ;;
                ret (val_some fields)
            end
        end
  end.

Definition db_to_row (offset : Z) : M RESval unit :=
  let off := offset in
  res <- get ;;
  match res with
  | None =>
      mysqlfailwith "Mysql.to_row: result did not return fetchable data"
  | Some r =>
      if (off <? 0) || (off >? to_int64 (to_int64 (mysql_num_rows r) - 1))
      then invalid_argument "Mysql.to_row: offset out of range"
      else put (Some (mysql_data_seek r (to_uint64 off))) ;; ret tt
  end.

Definition db_size : M RESval Z :=
  res <- get ;;
  match res with
  | None => ret 0
  | Some r => ret (to_int64 (mysql_num_rows r))
  end.

Definition db_fields : M RESval Z :=
  res <- get ;;
  match res with
  | None => ret 0
  | Some r => ret (Z.of_nat (mysql_num_fields r))
  end.

End ResultSet.

(** ** Connections: the [dbd] block and the stubs that take one *)

Module Connection.

(** Library entry points that receive the session pointer. *)
Inductive native_call : Type :=
| mysql_init | mysql_real_connect | mysql_close | mysql_change_user
| mysql_list_dbs | mysql_select_db | mysql_ping | mysql_real_query
| mysql_store_result | mysql_errno | mysql_error | mysql_affected_rows
| mysql_insert_id | mysql_get_host_info | mysql_get_server_info
| mysql_get_proto_info | mysql_stmt_init | mysql_stmt_prepare.

(** The answers of the library and the server, fixed per run. *)
Record MYSQL : Type := {
  init_result : option Z;            (* [mysql_init]: NULL or a session *)
  real_connect_ok : bool;
  change_user_rc : Z;
  select_db_rc : Z;
  ping_rc : Z;
  real_query_rc : Z;
  error_text : option string;        (* [mysql_error] *)
  errno : Z;
  list_dbs_result : option ResultSet.MYSQL_RES;
  store_result : option ResultSet.MYSQL_RES;
  affected_rows : Z;
  insert_id : Z;
  host_info : string;
  server_info : string;
  proto_info : Z;
  stmt_init_result : option Z;       (* [mysql_stmt_init]: NULL or a stmt *)
  stmt_prepare_rc : Z
}.

(** The OCaml block behind a [dbd] value: field 1 holds the [MYSQL*],
    field 2 the open flag. *)
Record dbd_block : Type := { DBDmysql : Z; DBDopen : bool }.

(** [Val_false], also the word stored over the pointer on disconnect. *)
Definition Val_false : Z := 1.

Record state : Type := {
  dbd : dbd_block;               (* the block the [dbd] argument points to *)
  session : option Z;            (* address of the live [MYSQL] object *)
  peer : MYSQL;
  trace : list (native_call * Z) (* library calls so far, with the pointer *)
}.

Definition set_dbd (b : dbd_block) (s : state) : state :=
  {| dbd := b; session := session s; peer := peer s; trace := trace s |}.
Definition set_session (p : option Z) (s : state) : state :=
  {| dbd := dbd s; session := p; peer := peer s; trace := trace s |}.
Definition log (c : native_call) (p : Z) (s : state) : state :=
  {| dbd := dbd s; session := session s; peer := peer s;
     trace := trace s ++ [(c, p)] |}.

(** A library call on pointer [p]: recorded, and defined only when [p]
    is the live session. *)
Definition native (c : native_call) (p : Z) : M state MYSQL :=
  modify (log c p) ;;
  s <- get ;;
  if decide (session s = Some p) then ret (peer s) else undefined.

(** [str_option]/[int_option] read OCaml options, which are Rocq
    options here.  The connection arguments, fields 0 to 4. *)
Record connect_args : Type := {
  arg_host : option string;
  arg_db : option string;
  arg_port : option Z;
  arg_pwd : option string;
  arg_user : option string
}.

Definition check_dbd (fun_ : string) : M state unit :=
  s <- get ;;
  if negb (DBDopen (dbd s))
  then mysqlfailmsg "Mysql.%s called with closed connection" [Arg_s fun_]
  else ret tt.

(** What [%s] prints for the [const char*] of [mysql_error]; the
    library never returns NULL there. *)
Definition error_arg (m : MYSQL) : fmt_arg :=
  Arg_s (default "(null)" (error_text m)).

Definition conn_finalize : M state unit :=
  s <- get ;;
  if DBDopen (dbd s)
  then native mysql_close (DBDmysql (dbd s)) ;; modify (set_session None)
  else ret tt.

Definition db_connect (args : connect_args) : M state unit :=
  modify (log mysql_init 0) ;;
  s <- get ;;
  match init_result (peer s) with
  | None => mysqlfailwith "connect failed"
  | Some init =>
      modify (set_session (Some init)) ;;
      m <- native mysql_real_connect init ;;
      if negb (real_connect_ok m)
      then e <- native mysql_error init ;;
           mysqlfailwith (default EmptyString (error_text e))
      else modify (set_dbd {| DBDmysql := init; DBDopen := true |})
  end.

Definition db_change_user (args : connect_args) : M state unit :=
  check_dbd "change_user" ;;
  s <- get ;;
  m <- native mysql_change_user (DBDmysql (dbd s)) ;;
  if negb (change_user_rc m =? 0)
  then e <- native mysql_error (DBDmysql (dbd s)) ;;
       mysqlfailmsg "Mysql.change_user: %s" [error_arg e]
  else ret tt.

(** The [while ((row = mysql_fetch_row(res)) != NULL)] loop of
    [db_list_dbs] over the rows left in a stored result. *)
Fixpoint list_dbs_loop (rows : list ResultSet.MYSQL_ROW) (i : nat)
    (dbs : list string) : M state (list string) :=
  match rows with
  | [] => ret dbs
  | row :: rows' =>
      match row !! O with
      | Some (Some name) => list_dbs_loop rows' (S i) (<[i := name]> dbs)
      | _ => undefined
      end
  end.

Definition db_list_dbs (pattern : option string)
  : M state (option (list string)) :=
  s <- get ;;
  m <- native mysql_list_dbs (DBDmysql (dbd s)) ;;
  match list_dbs_result m with
  | None => ret None
  | Some res =>
      let n := to_int32 (ResultSet.mysql_num_rows res) in
      if n =? 0 then ret None
      else
        dbs <- list_dbs_loop
                 (drop (ResultSet.data_cursor res) (ResultSet.data res)) O
                 (replicate (Z.to_nat n) EmptyString) ;;
        ret (Some dbs)
  end.

Definition db_select_db (newdb : string) : M state unit :=
  check_dbd "select_db" ;;
  s <- get ;;
  m <- native mysql_select_db (DBDmysql (dbd s)) ;;
  if negb (select_db_rc m =? 0)
  then e <- native mysql_error (DBDmysql (dbd s)) ;;
       mysqlfailmsg "Mysql.select_db: %s" [error_arg e]
  else ret tt.

Definition db_disconnect : M state unit :=
  check_dbd "disconnect" ;;
  s <- get ;;
  native mysql_close (DBDmysql (dbd s)) ;;
  modify (set_session None) ;;
  modify (set_dbd {| DBDmysql := Val_false; DBDopen := false |}).

Definition db_ping : M state unit :=
  check_dbd "ping" ;;
  s <- get ;;
  m <- native mysql_ping (DBDmysql (dbd s)) ;;
  if negb (ping_rc m =? 0)
  then e <- native mysql_error (DBDmysql (dbd s)) ;;
       mysqlfailmsg "Mysql.ping: %s" [error_arg e]
  else ret tt.

Definition db_exec (sql : string) : M state ResultSet.RESval :=
  check_dbd "exec" ;;
  s <- get ;;
  let mysql := DBDmysql (dbd s) in
  m <- native mysql_real_query mysql ;;
  if negb (real_query_rc m =? 0)
  then e <- native mysql_error mysql ;;
       mysqlfailmsg "Mysql.exec: %s" [error_arg e]
  else saved <- native mysql_store_result mysql ;;
       ret (store_result saved).

Definition db_status : M state Z :=
  check_dbd "status" ;;
  s <- get ;;
  m <- native mysql_errno (DBDmysql (dbd s)) ;;
  ret (errno m).

Definition db_errmsg : M state (option string) :=
  check_dbd "errmsg" ;;
  s <- get ;;
  m <- native mysql_error (DBDmysql (dbd s)) ;;
  let msg := error_text m in
  let msg :=
    match msg with
    | None => None
    | Some EmptyString => None
    | Some text => Some text
    end in
  ret (val_str_option msg
         (match msg with None => O | Some text => strlen text end)).

Definition db_affected : M state Z :=
  s <- get ;;
  m <- native mysql_affected_rows (DBDmysql (dbd s)) ;;
  ret (to_int64 (affected_rows m)).

Definition db_insert_id : M state Z :=
  s <- get ;;
  m <- native mysql_insert_id (DBDmysql (dbd s)) ;;
  ret (to_int64 (insert_id m)).

Definition db_host_info : M state string :=
  s <- get ;;
  m <- native mysql_get_host_info (DBDmysql (dbd s)) ;;
  ret (host_info m).

Definition db_server_info : M state string :=
  s <- get ;;
  m <- native mysql_get_server_info (DBDmysql (dbd s)) ;;
  ret (server_info m).

Definition db_proto_info : M state Z :=
  s <- get ;;
  m <- native mysql_get_proto_info (DBDmysql (dbd s)) ;;
  ret (proto_info m).

Definition caml_mysql_stmt_prepare (sql : string) : M state Z :=
  check_dbd "P.prepare" ;;
  s <- get ;;
  m <- native mysql_stmt_init (DBDmysql (dbd s)) ;;
  match stmt_init_result m with
  | None => mysqlfailwith "P.prepare : mysql_stmt_init"
  | Some stmt =>
      modify (log mysql_stmt_prepare stmt) ;;
      if negb (stmt_prepare_rc m =? 0)
      then mysqlfailwith "P.prepare : mysql_stmt_prepare"
      else ret stmt
  end.

(** The stubs that take a [dbd], as one family. *)
Inductive operation : Type :=
| Change_user (args : connect_args)
| List_dbs (pattern : option string)
| Select_db (newdb : string)
| Disconnect
| Ping
| Exec (sql : string)
| Status
| Errmsg
| Affected
| Insert_id
| Host_info
| Server_info
| Proto_info
| Prepare (sql : string).

Definition discard {A} (m : M state A) : M state unit := m ;; ret tt.

Definition run (op : operation) : M state unit :=
  match op with
  | Change_user args => db_change_user args
  | List_dbs pattern => discard (db_list_dbs pattern)
  | Select_db newdb => db_select_db newdb
  | Disconnect => db_disconnect
  | Ping => db_ping
  | Exec sql => discard (db_exec sql)
  | Status => discard db_status
  | Errmsg => discard db_errmsg
  | Affected => discard db_affected
  | Insert_id => discard db_insert_id
  | Host_info => discard db_host_info
  | Server_info => discard db_server_info
  | Proto_info => discard db_proto_info
  | Prepare sql => discard (caml_mysql_stmt_prepare sql)
  end.

(** The name each stub passes to [check_dbd], for those that call it. *)
Definition guard_name (op : operation) : option string :=
  match op with
  | Change_user _ => Some "change_user"
  | Select_db _ => Some "select_db"
  | Disconnect => Some "disconnect"
  | Ping => Some "ping"
  | Exec _ => Some "exec"
  | Status => Some "status"
  | Errmsg => Some "errmsg"
  | Prepare _ => Some "P.prepare"
  | List_dbs _ | Affected | Insert_id | Host_info | Server_info
  | Proto_info => None
  end.

(** The exception [check_dbd] raises for the stub named [fun_]. *)
Definition closed_connection_error (fun_ : string) : exn :=
  Mysql_error
    (String.append "Mysql."
       (String.append fun_ " called with closed connection")).

Definition is_closed_connection_error (e : exn) : Prop :=
  exists fun_, e = closed_connection_error fun_.

(** A connection as [db_connect] leaves it: flagged open, pointing at
    the live session. *)
Definition connected (s : state) : Prop :=
  DBDopen (dbd s) = true /\ session s = Some (DBDmysql (dbd s)).

(** A server that accepts everything, and a state before [db_connect]. *)
Definition quiet_peer : MYSQL :=
  {| init_result := Some 4096; real_connect_ok := true;
     change_user_rc := 0; select_db_rc := 0; ping_rc := 0;
     real_query_rc := 0; error_text := Some EmptyString; errno := 0;
     list_dbs_result := None; store_result := None;
     affected_rows := 0; insert_id := 0;
     host_info := "Localhost via UNIX socket";
     server_info := "5.0.51"; proto_info := 10;
     stmt_init_result := Some 8192; stmt_prepare_rc := 0 |}.

Definition fresh (m : MYSQL) : state :=
  {| dbd := {| DBDmysql := 0; DBDopen := false |}; session := None;
     peer := m; trace := [] |}.

Definition no_args : connect_args :=
  {| arg_host := None; arg_db := None; arg_port := None;
     arg_pwd := None; arg_user := None |}.

End Connection.

(** ** Prepared statements: [row_t], [caml_mysql_stmt_execute],
       [caml_mysql_stmt_fetch] *)

Module Stmt.

(** Where a [MYSQL_BIND.buffer] points: nowhere, at the bytes of a
    parameter string (read only by the library), or at the OCaml string
    stored at a location of the string store. *)
Inductive pointer : Type :=
| NULL
| Bytes_of (param : string)
| String_val (str : nat).

Inductive buffer_type_t : Type := Unset | MYSQL_TYPE_STRING.

(** The fields of [MYSQL_BIND] the stubs set.  Its [length], [is_null]
    and [error] members point at entry [index] of the arrays of the
    [row_t] that owns the bind; [linked] records that they were set. *)
Record MYSQL_BIND : Type := {
  buffer_type : buffer_type_t;
  buffer : pointer;
  buffer_length : nat;
  length_linked : bool;
  is_null_linked : bool;
  error_linked : bool
}.

Record row_t : Type := {
  row_count : nat;
  row_stmt : Z;                  (* not owned *)
  row_bind : list MYSQL_BIND;
  row_length : list nat;
  row_error : list bool;
  row_is_null : list bool
}.

(** What the server sends for one column of one row. *)
Record column_reply : Type := {
  reported_length : nat;         (* written to [*bind->length] *)
  reported_null : bool;          (* written to [*bind->is_null] *)
  value : string                 (* the bytes a column fetch copies *)
}.

Record fetch_reply : Type := {
  fetch_rc : Z;                  (* return code of [mysql_stmt_fetch] *)
  fetch_columns : list column_reply
}.

(** The library's statement object and the answers of the server. *)
Record MYSQL_STMT : Type := {
  param_count : Z;               (* [unsigned long] *)
  field_count : nat;
  bind_param_rc : bool;          (* [my_bool], true on failure *)
  execute_rc : Z;
  bind_result_rc : bool;
  result_bind : option nat;      (* the [row_t] whose arrays the result
                                    binds registered with the library
                                    point into *)
  replies : list fetch_reply;    (* the coming rows *)
  current : list column_reply    (* the row fetched last *)
}.

Inductive event : Type :=
| Malloc (a : nat)
| Free (a : nat)
| mysql_stmt_param_count
| mysql_stmt_bind_param (a : nat)
| mysql_stmt_execute
| mysql_stmt_field_count
| mysql_stmt_bind_result (a : nat)
| mysql_stmt_fetch
| mysql_stmt_fetch_column (column : nat).

Record state : Type := {
  heap : gmap nat row_t;         (* the live [row_t] objects *)
  brk : nat;                     (* the address [malloc] hands out next *)
  malloc_fails : list bool;      (* whether the coming [malloc]s fail *)
  strings : gmap nat string;     (* the OCaml strings of the stubs *)
  next_string : nat;
  fresh_byte : ascii;            (* content of uninitialised memory *)
  server : MYSQL_STMT;
  trace : list event
}.

Definition set_heap (h : gmap nat row_t) (s : state) : state :=
  {| heap := h; brk := brk s; malloc_fails := malloc_fails s;
     strings := strings s; next_string := next_string s;
     fresh_byte := fresh_byte s; server := server s; trace := trace s |}.
Definition set_strings (m : gmap nat string) (s : state) : state :=
  {| heap := heap s; brk := brk s; malloc_fails := malloc_fails s;
     strings := m; next_string := next_string s;
     fresh_byte := fresh_byte s; server := server s; trace := trace s |}.
Definition set_server (m : MYSQL_STMT) (s : state) : state :=
  {| heap := heap s; brk := brk s; malloc_fails := malloc_fails s;
     strings := strings s; next_string := next_string s;
     fresh_byte := fresh_byte s; server := m; trace := trace s |}.
Definition log (e : event) (s : state) : state :=
  {| heap := heap s; brk := brk s; malloc_fails := malloc_fails s;
     strings := strings s; next_string := next_string s;
     fresh_byte := fresh_byte s; server := server s;
     trace := trace s ++ [e] |}.

(** Reading and writing the object behind a [row_t*]. *)
Definition load (r : nat) : M state row_t :=
  s <- get ;;
  match heap s !! r with
  | Some row => ret row
  | None => undefined
  end.

Definition store (r : nat) (row : row_t) : M state unit :=
  s <- get ;;
  match heap s !! r with
  | Some _ => put (set_heap (<[r := row]> (heap s)) s)
  | None => undefined
  end.

Definition zero_bind : MYSQL_BIND :=
  {| buffer_type := Unset; buffer := NULL; buffer_length := 0;
     length_linked := false; is_null_linked := false;
     error_linked := false |}.

(** [create_row]: [malloc] of the struct, then the four zeroed arrays.
    Returns NULL ([None]) when [malloc] does. *)
Definition create_row (stmt : Z) (count : nat) : M state (option nat) :=
  s <- get ;;
  match malloc_fails s with
  | true :: rest =>
      put {| heap := heap s; brk := brk s; malloc_fails := rest;
             strings := strings s; next_string := next_string s;
             fresh_byte := fresh_byte s; server := server s;
             trace := trace s |} ;;
      ret None
  | _ =>
      let a := brk s in
      let row :=
        {| row_count := count; row_stmt := stmt;
           row_bind := replicate count zero_bind;
           row_length := replicate count O;
           row_error := replicate count false;
           row_is_null := replicate count false |} in
      put {| heap := <[a := row]> (heap s); brk := S a;
             malloc_fails := tail (malloc_fails s);
             strings := strings s; next_string := next_string s;
             fresh_byte := fresh_byte s; server := server s;
             trace := trace s ++ [Malloc a] |} ;;
      ret (Some a)
  end.

(** [destroy_row] of a non-NULL pointer: free the arrays and the
    struct.  Freeing what is not live is undefined. *)
Definition destroy_row (r : nat) : M state unit :=
  s <- get ;;
  match heap s !! r with
  | Some _ => put (log (Free r) (set_heap (delete r (heap s)) s))
  | None => undefined
  end.

Definition set_param (r : nat) (str : string) (len : nat) (index : nat)
  : M state unit :=
  row <- load r ;;
  match row_bind row !! index with
  | None => undefined
  | Some bind =>
      let bind' :=
        {| buffer_type := MYSQL_TYPE_STRING; buffer := Bytes_of str;
           buffer_length := len; length_linked := true;
           is_null_linked := is_null_linked bind;
           error_linked := error_linked bind |} in
      store r
        {| row_count := row_count row; row_stmt := row_stmt row;
           row_bind := <[index := bind']> (row_bind row);
           row_length := <[index := len]> (row_length row);
           row_error := row_error row; row_is_null := row_is_null row |}
  end.

Definition bind_result (r : nat) (index : nat) : M state unit :=
  row <- load r ;;
  match row_bind row !! index with
  | None => undefined
  | Some bind =>
      let bind' :=
        {| buffer_type := MYSQL_TYPE_STRING; buffer := NULL;
           buffer_length := 0; length_linked := true;
           is_null_linked := true; error_linked := true |} in
      store r
        {| row_count := row_count row; row_stmt := row_stmt row;
           row_bind := <[index := bind']> (row_bind row);
           row_length := row_length row;
           row_error := row_error row; row_is_null := row_is_null row |}
  end.

(** [caml_alloc_string len]: a fresh string of [len] bytes of whatever
    the memory held. *)
Definition caml_alloc_string (len : nat) : M state nat :=
  s <- get ;;
  let l := next_string s in
  put {| heap := heap s; brk := brk s; malloc_fails := malloc_fails s;
         strings := <[l := string_of_list_ascii
                              (replicate len (fresh_byte s))]> (strings s);
         next_string := S l; fresh_byte := fresh_byte s;
         server := server s; trace := trace s |} ;;
  ret l.

(** *** The client library on a statement *)

(** Return codes of [mysql_stmt_fetch] named in the library's header,
    which is not in the repository. *)
Record mysql_h : Type := {
  MYSQL_NO_DATA : Z;
  MYSQL_DATA_TRUNCATED : Z
}.

(** [news] written over the front of the array [old]. *)
Definition overwrite {A} (news old : list A) : list A :=
  take (length old) news ++ drop (length news) old.

(** A column fetch into a buffer of [cap] bytes holding [old]: at most
    [cap] bytes of [data] are copied, and a NUL is added when there is
    room. *)
Definition copy_into (old : string) (cap : nat) (data : string) : string :=
  let old := list_ascii_of_string old in
  let data := list_ascii_of_string data in
  let n := Nat.min (length data) cap in
  string_of_list_ascii
    (take n data ++
     (if (n <? cap)%nat then zero :: drop (S n) old else drop n old)).

Definition mysql_stmt_param_count_ : M state Z :=
  modify (log mysql_stmt_param_count) ;;
  s <- get ;;
  ret (param_count (server s)).

Definition mysql_stmt_bind_param_ (r : nat) : M state bool :=
  modify (log (mysql_stmt_bind_param r)) ;;
  s <- get ;;
  ret (bind_param_rc (server s)).

Definition mysql_stmt_execute_ : M state Z :=
  modify (log mysql_stmt_execute) ;;
  s <- get ;;
  ret (execute_rc (server s)).

Definition mysql_stmt_field_count_ : M state nat :=
  modify (log mysql_stmt_field_count) ;;
  s <- get ;;
  ret (field_count (server s)).

(** On success the library keeps the binds, and with them the pointers
    into the arrays of the row at [r]. *)
Definition mysql_stmt_bind_result_ (r : nat) : M state bool :=
  modify (log (mysql_stmt_bind_result r)) ;;
  s <- get ;;
  let m := server s in
  if bind_result_rc m then ret true
  else
    put (set_server
           {| param_count := param_count m; field_count := field_count m;
              bind_param_rc := bind_param_rc m;
              execute_rc := execute_rc m;
              bind_result_rc := bind_result_rc m;
              result_bind := Some r; replies := replies m;
              current := current m |} s) ;;
    ret false.

Section Fetch.

Variable h : mysql_h.

(** The next reply of the server becomes the current row; its lengths
    and null flags are written through the registered result binds,
    whose buffers have length 0 and receive no data. *)
Definition mysql_stmt_fetch_ : M state Z :=
  modify (log mysql_stmt_fetch) ;;
  s <- get ;;
  let m := server s in
  match replies m with
  | [] => ret (MYSQL_NO_DATA h)
  | reply :: rest =>
      let cols := fetch_columns reply in
      put (set_server
             {| param_count := param_count m;
                field_count := field_count m;
                bind_param_rc := bind_param_rc m;
                execute_rc := execute_rc m;
                bind_result_rc := bind_result_rc m;
                result_bind := result_bind m; replies := rest;
                current := cols |} s) ;;
      match result_bind m with
      | None => ret (fetch_rc reply)
      | Some a =>
          row <- load a ;;
          store a
            {| row_count := row_count row; row_stmt := row_stmt row;
               row_bind := row_bind row;
               row_length :=
                 overwrite (reported_length <$> cols) (row_length row);
               row_error := row_error row;
               row_is_null :=
                 overwrite (reported_null <$> cols) (row_is_null row)
            |} ;;
          ret (fetch_rc reply)
      end
  end.

(** [mysql_stmt_fetch_column(stmt, my_bind, column, 0)] copies column
    [column] of the current row into the buffer of the one bind
    [my_bind] points at; a NULL column copies nothing. *)
Definition mysql_stmt_fetch_column_ (my_bind : MYSQL_BIND)
    (column : nat) : M state unit :=
  modify (log (mysql_stmt_fetch_column column)) ;;
  s <- get ;;
  match current (server s) !! column with
  | None => ret tt
  | Some col =>
      if reported_null col then ret tt
      else
        match buffer my_bind with
        | String_val l =>
            match strings s !! l with
            | Some old =>
                if (buffer_length my_bind <=? String.length old)%nat
                then
                  put (set_strings
                         (<[l := copy_into old (buffer_length my_bind)
                                   (value col)]> (strings s)) s)
                else undefined
            | None => undefined
            end
        | NULL =>
            if (buffer_length my_bind =? 0)%nat then ret tt
            else undefined
        | Bytes_of _ => undefined
        end
  end.

(** *** The stubs *)

(** The result is [Val_none] or [Val_some str], [str] being the
    location of the string. *)
Definition get_column (r : nat) (index : nat) : M state (option nat) :=
  row <- load r ;;
  match row_length row !! index, row_bind row !! index with
  | Some length, Some bind =>
      if (0 <? length)%nat then
        str <- caml_alloc_string length ;;
        store r
          {| row_count := row_count row; row_stmt := row_stmt row;
             row_bind :=
               <[index :=
                  {| buffer_type := buffer_type bind;
                     buffer := String_val str;
                     buffer_length := length;
                     length_linked := length_linked bind;
                     is_null_linked := is_null_linked bind;
                     error_linked := error_linked bind |}]>
                 (row_bind row);
             row_length := row_length row;
             row_error := row_error row;
             row_is_null := row_is_null row |} ;;
        row' <- load r ;;
        (* the second argument is [r->bind], the first bind of the
           array *)
        match row_bind row' !! O with
        | Some first => mysql_stmt_fetch_column_ first index
        | None => undefined
        end ;;
        ret (Some str)
      else ret None
  | _, _ => undefined
  end.

(** The code the coming [mysql_stmt_fetch] returns. *)
Definition next_rc (s : state) : Z :=
  match replies (server s) with
  | [] => MYSQL_NO_DATA h
  | reply :: _ => fetch_rc reply
  end.

Definition caml_mysql_stmt_fetch (result : nat)
  : M state (option (list (option nat))) :=
  r <- load result ;;
  res <- mysql_stmt_fetch_ ;;
  if negb (0 =? res) && negb (MYSQL_DATA_TRUNCATED h =? res)
  then ret None
  else
    arr <- for_loop (row_count r) 0
             (fun i arr =>
                c <- get_column result i ;; ret (<[i := c]> arr))
             (replicate (row_count r) None) ;;
    ret (Some arr).

End Fetch.

(** [caml_mysql_stmt_execute]: [len] is an [int], compared with the
    [unsigned long] parameter count after the usual conversion. *)
Definition caml_mysql_stmt_execute (stmt : Z) (params : list string)
  : M state nat :=
  let len := to_int32 (Z.of_nat (length params)) in
  expected <- mysql_stmt_param_count_ ;;
  if negb (to_uint64 len =? expected) then
    expected <- mysql_stmt_param_count_ ;;
    mysqlfailmsg "P.execute : Got %i parameters, but expected %u"
      [Arg_i len; Arg_u expected]
  else
    row <- create_row stmt (Z.to_nat (to_uint64 len)) ;;
    match row with
    | None => mysqlfailwith "P.execute : create_row for params"
    | Some row =>
        for_loop (Z.to_nat len) 0
          (fun i _ =>
             match params !! i with
             | Some str => set_param row str (String.length str) i
             | None => undefined
             end) tt ;;
        failed <- mysql_stmt_bind_param_ row ;;
        if failed : bool then
          destroy_row row ;;
          mysqlfailwith "P.execute : mysql_stmt_bind_param"
        else
          rc <- mysql_stmt_execute_ ;;
          if negb (rc =? 0) then
            destroy_row row ;;
            mysqlfailwith "P.execute : mysql_stmt_execute"
          else
            destroy_row row ;;
            len <- mysql_stmt_field_count_ ;;
            row <- create_row stmt len ;;
            match row with
            | None => mysqlfailwith "P.execute : create_row for results"
            | Some row =>
                (if (len =? 0)%nat then ret tt
                 else
                   for_loop len 0 (fun i _ => bind_result row i) tt ;;
                   failed <- mysql_stmt_bind_result_ row ;;
                   if failed : bool then
                     destroy_row row ;;
                     mysqlfailwith "P.execute : mysql_stmt_bind_result"
                   else ret tt) ;;
                ret row
            end
    end.

(** What the OCaml program reads in a fetched row: the contents of the
    strings its entries refer to. *)
Definition read_row (s : state) (arr : list (option nat))
  : list (option string) :=
  (fun c => match c with
            | Some l => Some (default EmptyString (strings s !! l))
            | None => None
            end) <$> arr.

(** The first bind of a row points nowhere with room for nothing, or at
    a stored string with room for its [buffer_length]. *)
Definition first_bind_ok (s : state) (row : row_t) : Prop :=
  match row_bind row !! O with
  | Some b =>
      match buffer b with
      | NULL => buffer_length b = O
      | String_val l =>
          exists old, strings s !! l = Some old /\
                      (buffer_length b <= String.length old)%nat
      | Bytes_of _ => False
      end
  | None => True
  end.

(** A handle as [caml_mysql_stmt_execute] returns it and
    [caml_mysql_stmt_fetch] keeps it: a live row of [row_count] binds
    and lengths, which is the row the library's result binds point
    into, over a string store whose locations are all allocated. *)
Definition fetchable (result : nat) (s : state) : Prop :=
  exists row,
    heap s !! result = Some row /\
    length (row_bind row) = row_count row /\
    length (row_length row) = row_count row /\
    first_bind_ok s row /\
    (forall l, is_Some (strings s !! l) -> (l < next_string s)%nat) /\
    (forall a, result_bind (server s) = Some a -> a = result).

(** The entry [get_column] builds for a column of reported length
    [len]: [None] for 0, otherwise a string of [len] bytes. *)
Definition entry_for (s : state) (len : nat) (c : option nat) : Prop :=
  match len with
  | O => c = None
  | S _ => exists l str, c = Some l /\ strings s !! l = Some str /\
                         String.length str = len
  end.

Definition header : mysql_h :=
  {| MYSQL_NO_DATA := 100; MYSQL_DATA_TRUNCATED := 101 |}.

Definition initial (m : MYSQL_STMT) (junk : ascii) : state :=
  {| heap := ∅; brk := 1; malloc_fails := []; strings := ∅;
     next_string := 0; fresh_byte := junk; server := m; trace := [] |}.

End Stmt.

(** ** Sample worlds *)

Module Samples.

(** A stored result of two rows and two columns. *)
Definition two_rows : ResultSet.MYSQL_RES :=
  {| ResultSet.field_count := 2;
     ResultSet.data := [[Some "1"; None]; [Some "2"; Some "two"]];
     ResultSet.data_cursor := 0;
     ResultSet.current_row := None |}.

(** A connection right after [db_connect], and after [db_disconnect]. *)
Definition open_connection : Connection.state :=
  snd (Connection.db_connect Connection.no_args
         (Connection.fresh Connection.quiet_peer)).

Definition closed_connection : Connection.state :=
  snd (Connection.db_disconnect open_connection).

(** A connection whose last call failed. *)
Definition failed_peer : Connection.MYSQL :=
  {| Connection.init_result := Some 4096;
     Connection.real_connect_ok := true;
     Connection.change_user_rc := 0; Connection.select_db_rc := 1;
     Connection.ping_rc := 0; Connection.real_query_rc := 1;
     Connection.error_text := Some "Unknown database 'nope'";
     Connection.errno := 1049;
     Connection.list_dbs_result := None; Connection.store_result := None;
     Connection.affected_rows := 0; Connection.insert_id := 0;
     Connection.host_info := "Localhost via UNIX socket";
     Connection.server_info := "5.0.51"; Connection.proto_info := 10;
     Connection.stmt_init_result := Some 8192;
     Connection.stmt_prepare_rc := 0 |}.

Definition failed_connection : Connection.state :=
  snd (Connection.db_connect Connection.no_args
         (Connection.fresh failed_peer)).

(** A statement with no parameter and two result columns, whose only row
    holds "a" and "b". *)
Definition two_columns : Stmt.MYSQL_STMT :=
  {| Stmt.param_count := 0; Stmt.field_count := 2;
     Stmt.bind_param_rc := false; Stmt.execute_rc := 0;
     Stmt.bind_result_rc := false; Stmt.result_bind := None;
     Stmt.replies :=
       [ {| Stmt.fetch_rc := 101;
            Stmt.fetch_columns :=
              [ {| Stmt.reported_length := 1; Stmt.reported_null := false;
                   Stmt.value := "a" |};
                {| Stmt.reported_length := 1; Stmt.reported_null := false;
                   Stmt.value := "b" |} ] |} ];
     Stmt.current := [] |}.

(** A statement with one parameter that the server fails to execute. *)
Definition failing_execute : Stmt.MYSQL_STMT :=
  {| Stmt.param_count := 1; Stmt.field_count := 0;
     Stmt.bind_param_rc := false; Stmt.execute_rc := 1;
     Stmt.bind_result_rc := false; Stmt.result_bind := None;
     Stmt.replies := []; Stmt.current := [] |}.

(** The statement of [two_columns] after [caml_mysql_stmt_execute]. *)
Definition executed (junk : ascii) : Stmt.state :=
  snd (Stmt.caml_mysql_stmt_execute 77 [] (Stmt.initial two_columns junk)).

End Samples.

(** ** Programs over the stubs *)

Module Cursor.

(** [n] successive calls of a stub, with what each returned. *)
Fixpoint repeatedly {St A} (n : nat) (stub : M St A) : M St (list A) :=
  match n with
  | O => ret []
  | S n' =>
      first <- stub ;;
      rest <- repeatedly n' stub ;;
      ret (first :: rest)
  end.

(** What a program asks of a stored result. *)
Inductive request : Type :=
| Fetch
| Seek (offset : Z).

(** The result object after a request, whatever the outcome: an OCaml
    exception leaves the object as the stub left it. *)
Definition after_request (st : option ResultSet.MYSQL_RES) (q : request)
  : option ResultSet.MYSQL_RES :=
  match q with
  | Fetch => snd (ResultSet.db_fetch st)
  | Seek offset => snd (ResultSet.db_to_row offset st)
  end.

Definition after_requests (qs : list request)
    (st : option ResultSet.MYSQL_RES) : option ResultSet.MYSQL_RES :=
  foldl after_request st qs.

End Cursor.

(** ** Column descriptors: [make_field], [db_fetch_field],
       [db_fetch_field_dir], [db_fetch_fields] *)

Module Fields.

(** The members of the library's [MYSQL_FIELD] that [make_field] reads. *)
Record MYSQL_FIELD : Type := {
  name : string;
  table : option string;         (* may be NULL *)
  def : option string;           (* may be NULL *)
  type : Z;
  max_length : Z;                (* [unsigned long] *)
  flags : Z;                     (* [unsigned int] *)
  decimals : Z                   (* [unsigned int] *)
}.

(** The OCaml record [make_field] allocates, fields 0 to 6. *)
Record dbfield : Type := {
  f_name : string;
  f_table : option string;
  f_def : option string;
  f_ty : TypeMapper.dbty;
  f_max_length : Z;
  f_flags : Z;
  f_decimals : Z
}.

(** [Val_long]: an OCaml integer keeps 63 bits. *)
Definition Val_long (x : Z) : Z := (x + 2 ^ 62) mod 2 ^ 63 - 2 ^ 62.

(** A stored result with its column metadata and the field cursor of
    [mysql_fetch_field]. *)
Record result : Type := {
  res : ResultSet.MYSQL_RES;
  fields : list MYSQL_FIELD;
  current_field : nat
}.

(** The metadata array has one entry per column. *)
Definition well_formed (r : result) : Prop :=
  length (fields r) = ResultSet.field_count (res r).

Section Catalog.

Variable ft : TypeMapper.field_types.

(** The block [make_field] fills; [type2dbty] running off its table
    leaves no tag to store. *)
Definition field_of (f : MYSQL_FIELD) : option dbfield :=
  let table :=
    match table f with
    | Some t => val_str_option (Some t) (strlen t)
    | None => None
    end in
  let def :=
    match def f with
    | Some d => val_str_option (Some d) (strlen d)
    | None => None
    end in
  match TypeMapper.type2dbty ft (type f) with
  | Some ty =>
      Some {| f_name := name f; f_table := table; f_def := def;
              f_ty := ty; f_max_length := Val_long (max_length f);
              f_flags := Val_long (flags f);
              f_decimals := Val_long (decimals f) |}
  | None => None
  end.

Definition make_field {St} (f : MYSQL_FIELD) : M St dbfield :=
  match field_of f with
  | Some data => ret data
  | None => undefined
  end.

(** [mysql_fetch_field]: NULL once the cursor has passed the last
    column, otherwise the field under the cursor, which moves on. *)
Definition mysql_fetch_field : M result (option MYSQL_FIELD) :=
  r <- get ;;
  if (ResultSet.field_count (res r) <=? current_field r)%nat then ret None
  else
    match fields r !! current_field r with
    | Some f =>
        put {| res := res r; fields := fields r;
               current_field := S (current_field r) |} ;;
        ret (Some f)
    | None => undefined
    end.

(** [mysql_fetch_field_direct(res, fieldnr)] is [&res->fields[fieldnr]],
    without a bounds check. *)
Definition mysql_fetch_field_direct (r : result) (fieldnr : Z)
  : option MYSQL_FIELD :=
  fields r !! Z.to_nat fieldnr.

(** Running a library call on the result object behind a non-NULL
    handle. *)
Definition on_result {A} (m : M result A) : M (option result) A :=
  fun st =>
    match st with
    | Some r => let '(o, r') := m r in (o, Some r')
    | None => (Undefined, None)
    end.

Definition db_fetch_field : M (option result) (option dbfield) :=
  st <- get ;;
  match st with
  | None => ret None
  | Some _ =>
      f <- on_result mysql_fetch_field ;;
      match f with
      | None => ret None
      | Some f => field <- make_field f ;; ret (Some field)
      end
  end.

(** [pos] is an OCaml integer, converted to [unsigned int]. *)
Definition db_fetch_field_dir (pos : Z) : M (option result) (option dbfield) :=
  st <- get ;;
  match st with
  | None => ret None
  | Some r =>
      match mysql_fetch_field_direct r (pos mod 2 ^ 32) with
      | None => undefined
      | Some f => field <- make_field f ;; ret (Some field)
      end
  end.

(** [mysql_num_fields(res)] comes before any test of [res]. *)
Definition db_fetch_fields
  : M (option result) (option (list (option dbfield))) :=
  st <- get ;;
  match st with
  | None => undefined
  | Some r =>
      let n := ResultSet.mysql_num_fields (res r) in
      if (n =? 0)%nat then ret None
      else
        let f := fields r in
        fields <-
          for_loop n 0
            (fun i fields =>
               match f !! i with
               | Some fi =>
                   field <- make_field fi ;;
                   ret (<[i := Some field]> fields)
               | None => undefined
               end)
            (ResultSet.alloc_tuple n) ;;
        ret (Some fields)
  end.

End Catalog.

(** Two columns of a result: an integer key and a nullable text. *)
Definition sample : result :=
  {| res := Samples.two_rows;
     fields :=
       [ {| name := "id"; table := Some "t"; def := None; type := 3;
            max_length := 1; flags := 16899; decimals := 0 |};
         {| name := "label"; table := Some "t"; def := None; type := 253;
            max_length := 3; flags := 0; decimals := 0 |} ];
     current_field := 0 |}.

End Fields.

(** ** The life of a connection *)

Module Lifetime.

(** Between two states the connection was left alone: same block, same
    session, same server, and only library calls added to the trace. *)
Definition untouched (s s' : Connection.state) : Prop :=
  Connection.dbd s' = Connection.dbd s /\
  Connection.session s' = Connection.session s /\
  Connection.peer s' = Connection.peer s /\
  exists calls, Connection.trace s' = Connection.trace s ++ calls.

(** A computation that, on an open connection whose session is [p], has
    defined behaviour and leaves the connection alone. *)
Definition steady_at {A} (p : Z) (m : M Connection.state A) : Prop :=
  forall s,
    Connection.connected s ->
    Connection.DBDmysql (Connection.dbd s) = p ->
    fst (m s) <> Undefined /\ untouched s (snd (m s)).

(** The text after the prefix in the error a failed library call raises:
    [mysqlfailmsg] keeps the first 1023 characters. *)
Definition failure (prefix : string) (m : Connection.MYSQL) : exn :=
  Mysql_error
    (substring 0 1023
       (String.append prefix
          (default "(null)" (Connection.error_text m)))).

(** A server listing two databases. *)
Definition listing_peer : Connection.MYSQL :=
  {| Connection.init_result := Some 4096;
     Connection.real_connect_ok := true;
     Connection.change_user_rc := 0; Connection.select_db_rc := 0;
     Connection.ping_rc := 1; Connection.real_query_rc := 0;
     Connection.error_text := Some "MySQL server has gone away";
     Connection.errno := 2006;
     Connection.list_dbs_result :=
       Some {| ResultSet.field_count := 1;
               ResultSet.data := [[Some "mysql"]; [Some "test"]];
               ResultSet.data_cursor := 0;
               ResultSet.current_row := None |};
     Connection.store_result := Some Samples.two_rows;
     Connection.affected_rows := 2 ^ 64 - 1; Connection.insert_id := 7;
     Connection.host_info := "Localhost via UNIX socket";
     Connection.server_info := "5.0.51"; Connection.proto_info := 10;
     Connection.stmt_init_result := Some 8192;
     Connection.stmt_prepare_rc := 0 |}.

Definition listing_connection : Connection.state :=
  snd (Connection.db_connect Connection.no_args
         (Connection.fresh listing_peer)).


End Lifetime.

(** ** Handles of prepared-statement results *)

Module Handles.

(** A row of [n] result binds as [bind_result] leaves them: no buffer,
    room for nothing. *)
Definition unbound_row (n : nat) (row : Stmt.row_t) : Prop :=
  Stmt.row_count row = n /\
  length (Stmt.row_bind row) = n /\
  length (Stmt.row_length row) = n /\
  Forall (fun b => Stmt.buffer b = Stmt.NULL /\ Stmt.buffer_length b = O)
    (Stmt.row_bind row).


(** [stmt_result_finalize]: print "finalize" on the standard output,
    then destroy the row of the handle.  The state pairs the output so
    far with the statement world. *)
Definition stmt_result_finalize (result : nat)
  : M (string * Stmt.state) unit :=
  fun '(out, s) =>
    let '(o, s') := Stmt.destroy_row result s in
    (o, (String.append out "finalize", s')).

(** A statement with one result column whose only row holds "hello". *)
Definition one_column : Stmt.MYSQL_STMT :=
  {| Stmt.param_count := 1; Stmt.field_count := 1;
     Stmt.bind_param_rc := false; Stmt.execute_rc := 0;
     Stmt.bind_result_rc := false; Stmt.result_bind := None;
     Stmt.replies :=
       [ {| Stmt.fetch_rc := 101;
            Stmt.fetch_columns :=
              [ {| Stmt.reported_length := 5; Stmt.reported_null := false;
                   Stmt.value := "hello" |} ] |} ];
     Stmt.current := [] |}.


End Handles.

(** * Properties *)

(** ** The type mapper *)

Section TypeMapperFacts.

Import TypeMapper.

Lemma scan_terminated tbl d type :
  exists t, scan (tbl ++ [(-1, d)]) type = Some t.
Proof.
  induction tbl as [|[k v] tbl IH]; simpl.
  - eauto.
  - destruct ((k =? -1) || (k =? type)); eauto.
Qed.

Lemma scan_miss tbl d type :
  (-1 ∉ tbl.*1) -> (type ∉ tbl.*1) ->
  scan (tbl ++ [(-1, d)]) type = Some d.
Proof.
  induction tbl as [|[k v] tbl IH]; simpl; intros Hs Hk.
  - reflexivity.
  - apply not_elem_of_cons in Hs as [Hs1 Hs2].
    apply not_elem_of_cons in Hk as [Hk1 Hk2].
    destruct (Z.eqb_spec k (-1)); [congruence|].
    destruct (Z.eqb_spec k type); [congruence|].
    simpl. auto.
Qed.

Lemma scan_hit tbl d code t :
  NoDup tbl.*1 -> (-1 ∉ tbl.*1) -> (code, t) ∈ tbl ->
  scan (tbl ++ [(-1, d)]) code = Some t.
Proof.
  induction tbl as [|[k v] tbl IH]; simpl; intros Hd Hs Hin.
  - inversion Hin.
  - apply NoDup_cons in Hd as [Hk Hd].
    apply not_elem_of_cons in Hs as [Hs1 Hs2].
    destruct (Z.eqb_spec k (-1)); [congruence|]. simpl.
    apply elem_of_cons in Hin as [Heq|Hin].
    + inversion Heq; subst. rewrite Z.eqb_refl. reflexivity.
    + destruct (Z.eqb_spec k code) as [->|_]; [|auto].
      exfalso. apply Hk. apply list_elem_of_fmap.
      exists (code, t). split; [reflexivity|assumption].
Qed.

Lemma entry_hit ft code t :
  NoDup (codes ft) -> (-1 ∉ codes ft) -> (code, t) ∈ entries ft ->
  type2dbty ft code = Some t.
Proof. intros. unfold type2dbty, map. by apply scan_hit. Qed.

End TypeMapperFacts.

(** C5.  [type2dbty] always returns a tag; provided the library's field
    type codes are pairwise distinct and none is the terminator -1, every
    code of the table maps to the tag of its entry, every other code maps
    to [UNKNOWN_TY], the integer types below 64 bits map to [INT_TY], the
    64-bit integer maps to [INT64_TY] and the four blob types map to
    [BLOB_TY]. *)
Theorem type2dbty_total_and_fixed (ft : TypeMapper.field_types) :
  NoDup (TypeMapper.codes ft) ->
  (-1 ∉ TypeMapper.codes ft) ->
  let f := TypeMapper.type2dbty ft in
  (forall type, exists t, f type = Some t) /\
  (forall code t, (code, t) ∈ TypeMapper.entries ft -> f code = Some t) /\
  (forall type, type ∉ TypeMapper.codes ft ->
                f type = Some TypeMapper.UNKNOWN_TY) /\
  (f (TypeMapper.FIELD_TYPE_TINY ft) = Some TypeMapper.INT_TY /\
   f (TypeMapper.FIELD_TYPE_SHORT ft) = Some TypeMapper.INT_TY /\
   f (TypeMapper.FIELD_TYPE_LONG ft) = Some TypeMapper.INT_TY /\
   f (TypeMapper.FIELD_TYPE_INT24 ft) = Some TypeMapper.INT_TY) /\
  f (TypeMapper.FIELD_TYPE_LONGLONG ft) = Some TypeMapper.INT64_TY /\
  (f (TypeMapper.FIELD_TYPE_TINY_BLOB ft) = Some TypeMapper.BLOB_TY /\
   f (TypeMapper.FIELD_TYPE_MEDIUM_BLOB ft) = Some TypeMapper.BLOB_TY /\
   f (TypeMapper.FIELD_TYPE_LONG_BLOB ft) = Some TypeMapper.BLOB_TY /\
   f (TypeMapper.FIELD_TYPE_BLOB ft) = Some TypeMapper.BLOB_TY).
Proof.
  intros Hd Hs f.
  assert (Hhit : forall code t, (code, t) ∈ TypeMapper.entries ft ->
                                f code = Some t)
    by (intros; by apply entry_hit).
  split; [intros; apply scan_terminated|].
  split; [exact Hhit|].
  split; [intros; by apply scan_miss|].
  repeat split; apply Hhit; unfold TypeMapper.entries;
    repeat first [apply list_elem_of_here | apply list_elem_of_further].
Qed.

Lemma type2dbty_total_and_fixed_witness :
  NoDup (TypeMapper.codes TypeMapper.mysql_com_h) /\
  (-1 ∉ TypeMapper.codes TypeMapper.mysql_com_h) /\
  TypeMapper.type2dbty TypeMapper.mysql_com_h 252 = Some TypeMapper.BLOB_TY /\
  TypeMapper.type2dbty TypeMapper.mysql_com_h 8 = Some TypeMapper.INT64_TY /\
  TypeMapper.type2dbty TypeMapper.mysql_com_h 255
    = Some TypeMapper.UNKNOWN_TY.
Proof.
  assert (Hd : NoDup (TypeMapper.codes TypeMapper.mysql_com_h))
    by (apply (bool_decide_unpack _); vm_compute; exact I).
  assert (Hs : -1 ∉ TypeMapper.codes TypeMapper.mysql_com_h)
    by (apply (bool_decide_unpack _); vm_compute; exact I).
  destruct (type2dbty_total_and_fixed TypeMapper.mysql_com_h Hd Hs)
    as (_ & _ & Hmiss & _ & H64 & _ & _ & _ & Hblob).
  split; [exact Hd|]. split; [exact Hs|]. split; [exact Hblob|].
  split; [exact H64|].
  apply Hmiss. apply (bool_decide_unpack _). vm_compute. exact I.
Defined.

(** ** Shared facts: the monad, loops, strings *)

Lemma substring_whole (s : string) : substring 0 (String.length s) s = s.
Proof. induction s as [|c s IH]; simpl; [reflexivity|by rewrite IH]. Qed.

Lemma append_empty (s : string) : String.append s EmptyString = s.
Proof.
  induction s as [|c s IH]; [reflexivity|].
  change (String c (String.append s EmptyString) = String c s).
  by rewrite IH.
Qed.

Lemma val_str_option_whole (col : option string) :
  val_str_option col
    (match col with Some bytes => String.length bytes | None => O end) = col.
Proof. destruct col; simpl; [by rewrite substring_whole|reflexivity]. Qed.

Lemma bind_returns {St A B} (m : M St A) (k : A -> M St B) s a s' :
  m s = (Returns a, s') -> bind m k s = k a s'.
Proof. intros H. unfold bind. by rewrite H. Qed.

Lemma bind_raises {St A B} (m : M St A) (k : A -> M St B) s e s' :
  m s = (Raises e, s') -> bind m k s = (Raises e, s').
Proof. intros H. unfold bind. by rewrite H. Qed.

Lemma bind_undefined {St A B} (m : M St A) (k : A -> M St B) s s' :
  m s = (Undefined, s') -> bind m k s = (Undefined, s').
Proof. intros H. unfold bind. by rewrite H. Qed.

(** A loop whose body stores [vals !! i] at index [i] leaves the array
    holding [vals] from the start index on. *)
Lemma for_loop_store {St A} (vals : list A)
    (body : nat -> list A -> M St (list A)) (s : St) :
  (forall i v acc, vals !! i = Some v ->
                   body i acc s = (Returns (<[i := v]> acc), s)) ->
  forall k i acc,
    (i + k = length vals)%nat -> length acc = length vals ->
    for_loop k i body acc s = (Returns (take i acc ++ drop i vals), s).
Proof.
  intros Hbody. induction k as [|k IH]; intros i acc Hik Hlen; simpl.
  - unfold ret. rewrite drop_ge by lia. rewrite take_ge by lia.
    by rewrite app_nil_r.
  - destruct (lookup_lt_is_Some_2 vals i) as [v Hv]; [lia|].
    unfold bind. rewrite (Hbody i v acc Hv).
    rewrite IH; [|lia|by rewrite length_insert].
    f_equal. f_equal.
    rewrite (drop_S vals v i Hv).
    rewrite (take_S_r (<[i:=v]> acc) i v).
    + rewrite take_insert_ge by lia. by rewrite <- app_assoc.
    + apply list_lookup_insert_eq. lia.
Qed.

(** ** Buffered result sets *)

Section ResultSetFacts.

Import ResultSet.

Lemma fetch_lengths_columns (row : MYSQL_ROW) :
  zip_with val_str_option row
    (List.map (fun c => match c with
                        | Some bytes => String.length bytes
                        | None => O
                        end) row) = row.
Proof.
  induction row as [|c row IH]; simpl; [reflexivity|].
  rewrite IH. f_equal. apply val_str_option_whole.
Qed.

Lemma db_fetch_row (r : MYSQL_RES) (row : MYSQL_ROW) :
  field_count r <> O ->
  data r !! data_cursor r = Some row ->
  length row = field_count r ->
  db_fetch (Some r) =
    (Returns (Some row),
     Some {| field_count := field_count r; data := data r;
             data_cursor := S (data_cursor r);
             current_row := Some row |}).
Proof.
  intros Hn Hrow Hlen.
  unfold db_fetch, bind, get, put, mysql_num_fields, mysql_fetch_row.
  destruct (Nat.eqb_spec (field_count r) 0); [contradiction|].
  rewrite Hrow. simpl.
  set (lens := List.map _ row).
  rewrite (for_loop_store (zip_with val_str_option row lens)).
  - simpl. unfold ret, val_some. subst lens.
    by rewrite fetch_lengths_columns.
  - intros i v acc Hv.
    apply lookup_zip_with_Some in Hv as (col & len & -> & Hcol & Hl).
    cbv beta. rewrite Hcol, Hl. reflexivity.
  - rewrite length_zip_with. subst lens. rewrite length_map. lia.
  - unfold alloc_tuple. rewrite length_replicate, length_zip_with.
    subst lens. rewrite length_map. lia.
Qed.

Lemma db_fetch_exhausted (r : MYSQL_RES) :
  field_count r <> O ->
  (length (data r) <= data_cursor r)%nat ->
  db_fetch (Some r) =
    (Returns None,
     Some {| field_count := field_count r; data := data r;
             data_cursor := data_cursor r; current_row := None |}).
Proof.
  intros Hn Hend.
  unfold db_fetch, bind, get, put, mysql_num_fields, mysql_fetch_row.
  destruct (Nat.eqb_spec (field_count r) 0); [contradiction|].
  rewrite (lookup_ge_None_2 (data r)) by lia. reflexivity.
Qed.

End ResultSetFacts.

(** C7.  [db_fetch] on a stored result with at least one column returns
    the row under the cursor, column by column ([None] for a NULL column,
    [Some] of its bytes otherwise) and moves the cursor one row on; with
    the cursor past the last row it returns [None]; without a result
    handle, or with zero columns, it raises instead. *)
Theorem db_fetch_next_row_or_none (r : ResultSet.MYSQL_RES) :
  ResultSet.well_formed r ->
  ResultSet.field_count r <> O ->
  (forall row,
      ResultSet.data r !! ResultSet.data_cursor r = Some row ->
      exists r',
        ResultSet.db_fetch (Some r) = (Returns (Some row), Some r') /\
        length row = ResultSet.field_count r /\
        ResultSet.data_cursor r' = S (ResultSet.data_cursor r) /\
        ResultSet.data r' = ResultSet.data r) /\
  ((length (ResultSet.data r) <= ResultSet.data_cursor r)%nat ->
   exists r',
     ResultSet.db_fetch (Some r) = (Returns None, Some r') /\
     ResultSet.data_cursor r' = ResultSet.data_cursor r /\
     ResultSet.data r' = ResultSet.data r) /\
  ResultSet.db_fetch None =
    (Raises (Mysql_error "Mysql.fetch: result did not return fetchable data"),
     None) /\
  (forall r0, ResultSet.field_count r0 = O ->
     ResultSet.db_fetch (Some r0) =
       (Raises (Mysql_error "Mysql.fetch: no columns"), Some r0)).
Proof.
  intros Hwf Hn. split; [|split; [|split]].
  - intros row Hrow.
    assert (Hlen : length row = ResultSet.field_count r).
    { unfold ResultSet.well_formed in Hwf.
      rewrite Forall_lookup in Hwf. exact (Hwf _ _ Hrow). }
    eexists. split; [by apply db_fetch_row|]. simpl. auto.
  - intros Hend. eexists. split; [by apply db_fetch_exhausted|]. simpl. auto.
  - reflexivity.
  - intros r0 H0. unfold ResultSet.db_fetch, bind, get, mysqlfailwith, raise.
    unfold ResultSet.mysql_num_fields. rewrite H0. reflexivity.
Qed.

Lemma db_fetch_next_row_or_none_witness :
  ResultSet.well_formed Samples.two_rows /\
  ResultSet.field_count Samples.two_rows <> O /\
  fst (ResultSet.db_fetch (Some Samples.two_rows)) =
    Returns (Some [Some "1"; None]).
Proof.
  assert (Hwf : ResultSet.well_formed Samples.two_rows)
    by (repeat constructor).
  assert (Hn : ResultSet.field_count Samples.two_rows <> O)
    by (simpl; lia).
  split; [exact Hwf|]. split; [exact Hn|].
  destruct (db_fetch_next_row_or_none Samples.two_rows Hwf Hn)
    as (Hrow & _).
  destruct (Hrow [Some "1"; None]) as (r' & -> & _); reflexivity.
Defined.

Lemma to_int64_small (z : Z) : - 2 ^ 63 <= z < 2 ^ 63 -> to_int64 z = z.
Proof. intros H. unfold to_int64. rewrite Z.mod_small; lia. Qed.

Lemma to_uint64_small (z : Z) : 0 <= z < 2 ^ 64 -> to_uint64 z = z.
Proof. intros H. unfold to_uint64. apply Z.mod_small; lia. Qed.

Lemma to_int32_small (z : Z) : - 2 ^ 31 <= z < 2 ^ 31 -> to_int32 z = z.
Proof. intros H. unfold to_int32. rewrite Z.mod_small; lia. Qed.

Lemma db_to_row_bound (r : ResultSet.MYSQL_RES) :
  ResultSet.mysql_num_rows r < 2 ^ 63 ->
  to_int64 (to_int64 (ResultSet.mysql_num_rows r) - 1)
  = ResultSet.mysql_num_rows r - 1.
Proof.
  intros H.
  assert (0 <= ResultSet.mysql_num_rows r)
    by (unfold ResultSet.mysql_num_rows; lia).
  rewrite (to_int64_small (ResultSet.mysql_num_rows r)) by lia.
  apply to_int64_small. lia.
Qed.

(** C6, as the code has it.  On a result handle with N rows (N below
    2^63, the range of the [int64] comparison), [db_to_row] moves the
    cursor to [offset] exactly when 0 <= offset < N and raises
    [Invalid_argument] otherwise, leaving the cursor alone; without a
    result handle it raises the "mysql error" exception for every
    offset. *)
Theorem db_to_row_range (r : ResultSet.MYSQL_RES) (offset : Z) :
  ResultSet.mysql_num_rows r < 2 ^ 63 ->
  (0 <= offset < ResultSet.mysql_num_rows r ->
   ResultSet.db_to_row offset (Some r) =
     (Returns tt,
      Some {| ResultSet.field_count := ResultSet.field_count r;
              ResultSet.data := ResultSet.data r;
              ResultSet.data_cursor := Z.to_nat offset;
              ResultSet.current_row := None |})) /\
  (offset < 0 \/ ResultSet.mysql_num_rows r <= offset ->
   ResultSet.db_to_row offset (Some r) =
     (Raises (Invalid_argument "Mysql.to_row: offset out of range"),
      Some r)) /\
  ResultSet.db_to_row offset None =
    (Raises
       (Mysql_error "Mysql.to_row: result did not return fetchable data"),
     None).
Proof.
  intros HN. split; [|split]; [| |reflexivity].
  - intros Hin.
    unfold ResultSet.db_to_row, bind, get. rewrite db_to_row_bound by done.
    destruct (Z.ltb_spec offset 0); [lia|].
    destruct (Z.gtb_spec offset (ResultSet.mysql_num_rows r - 1)); [lia|].
    simpl. unfold ResultSet.mysql_data_seek.
    rewrite to_uint64_small by lia. reflexivity.
  - intros Hout.
    unfold ResultSet.db_to_row, bind, get. rewrite db_to_row_bound by done.
    destruct (Z.ltb_spec offset 0); [reflexivity|].
    destruct (Z.gtb_spec offset (ResultSet.mysql_num_rows r - 1)); [|lia].
    reflexivity.
Qed.

Lemma db_to_row_range_witness :
  ResultSet.mysql_num_rows Samples.two_rows < 2 ^ 63 /\
  fst (ResultSet.db_to_row 1 (Some Samples.two_rows)) = Returns tt /\
  fst (ResultSet.db_to_row 2 (Some Samples.two_rows)) =
    Raises (Invalid_argument "Mysql.to_row: offset out of range").
Proof.
  assert (HN : ResultSet.mysql_num_rows Samples.two_rows < 2 ^ 63)
    by (vm_compute; reflexivity).
  split; [exact HN|]. split.
  - destruct (db_to_row_range Samples.two_rows 1 HN) as (Hin & _ & _).
    rewrite Hin; [reflexivity|]. vm_compute. split; [discriminate|reflexivity].
  - destruct (db_to_row_range Samples.two_rows 2 HN) as (_ & Hout & _).
    rewrite Hout; [reflexivity|]. right. vm_compute. discriminate.
Defined.

(** C6 as stated fails on a result without a handle: it has zero rows
    ([db_size]), offset 0 is not below zero rows, and yet the failure is
    the "mysql error" exception, not [Invalid_argument]. *)
Lemma db_to_row_without_handle :
  ResultSet.db_size None = (Returns 0, None) /\
  ResultSet.db_to_row 0 None =
    (Raises
       (Mysql_error "Mysql.to_row: result did not return fetchable data"),
     None) /\
  (forall msg,
     fst (ResultSet.db_to_row 0 None) <> Raises (Invalid_argument msg)).
Proof. split; [reflexivity|]. split; [reflexivity|]. discriminate. Qed.

(** ** Connections *)

Section ConnectionFacts.

Import Connection.

Lemma check_dbd_open (name : string) (s : state) :
  DBDopen (dbd s) = true -> check_dbd name s = (Returns tt, s).
Proof. intros H. unfold check_dbd, bind, get. by rewrite H. Qed.

Lemma native_live (c : native_call) (s : state) :
  session s = Some (DBDmysql (dbd s)) ->
  native c (DBDmysql (dbd s)) s
  = (Returns (peer s), log c (DBDmysql (dbd s)) s).
Proof.
  intros H. unfold native, bind, modify, get. simpl.
  destruct (decide _); [reflexivity|contradiction].
Qed.

(** A stub that starts with [check_dbd] raises on a closed connection
    and leaves the world as it was. *)
Lemma guarded_fails_fast (op : operation) (name : string) (s : state) :
  guard_name op = Some name ->
  DBDopen (dbd s) = false ->
  run op s = (Raises (closed_connection_error name), s).
Proof.
  intros Hg Hc.
  assert (Hcheck : forall fun_,
             check_dbd fun_ s =
               (Raises (Mysql_error
                          (substring 0 1023
                             (format "Mysql.%s called with closed connection"
                                [Arg_s fun_]))), s)).
  { intros fun_. unfold check_dbd, bind, get. rewrite Hc. reflexivity. }
  destruct op; simpl in Hg; inversion Hg; subst; clear Hg;
    unfold run, discard, db_change_user, db_select_db, db_disconnect,
      db_ping, db_exec, db_status, db_errmsg, caml_mysql_stmt_prepare;
    repeat (erewrite bind_raises; [reflexivity|]); apply Hcheck.
Qed.

Lemma db_disconnect_open (s : state) :
  connected s ->
  db_disconnect s =
    (Returns tt,
     {| dbd := {| DBDmysql := Val_false; DBDopen := false |};
        session := None; peer := peer s;
        trace := trace s ++ [(mysql_close, DBDmysql (dbd s))] |}).
Proof.
  intros [Ho Hs]. unfold db_disconnect.
  unfold bind at 1. rewrite check_dbd_open by done.
  unfold bind at 1. unfold get at 1.
  unfold bind at 1. rewrite native_live by done.
  reflexivity.
Qed.

End ConnectionFacts.

(** C4, as the code has it.  [db_disconnect] on an open connection closes
    the session and clears the open flag; a second [db_disconnect] raises
    the closed-connection error and changes nothing, and so does every
    stub that starts with [check_dbd]. *)
Theorem db_disconnect_then_closed (s : Connection.state) :
  Connection.connected s ->
  exists s1,
    Connection.db_disconnect s = (Returns tt, s1) /\
    Connection.DBDopen (Connection.dbd s1) = false /\
    Connection.session s1 = None /\
    Connection.trace s1 =
      Connection.trace s ++
        [(Connection.mysql_close, Connection.DBDmysql (Connection.dbd s))] /\
    Connection.db_disconnect s1 =
      (Raises (Connection.closed_connection_error "disconnect"), s1) /\
    (forall op name,
        Connection.guard_name op = Some name ->
        Connection.run op s1 =
          (Raises (Connection.closed_connection_error name), s1)).
Proof.
  intros Hs. eexists. split; [by apply db_disconnect_open|].
  split; [reflexivity|]. split; [reflexivity|]. split; [reflexivity|].
  split.
  - by apply (guarded_fails_fast Connection.Disconnect).
  - intros op name Hg. by apply guarded_fails_fast.
Qed.

Lemma db_disconnect_then_closed_witness :
  Connection.connected Samples.open_connection /\
  Connection.db_disconnect Samples.closed_connection =
    (Raises (Mysql_error "Mysql.disconnect called with closed connection"),
     Samples.closed_connection) /\
  Connection.run Connection.Ping Samples.closed_connection =
    (Raises (Mysql_error "Mysql.ping called with closed connection"),
     Samples.closed_connection).
Proof.
  assert (Hc : Connection.connected Samples.open_connection)
    by (split; reflexivity).
  split; [exact Hc|].
  destruct (db_disconnect_then_closed Samples.open_connection Hc)
    as (s1 & Hd & _ & _ & _ & Hagain & Hops).
  assert (s1 = Samples.closed_connection) as ->.
  { unfold Samples.closed_connection. by rewrite Hd. }
  split; [exact Hagain|]. exact (Hops Connection.Ping "ping" eq_refl).
Defined.

(** C4 as stated fails: the second [db_disconnect] is not a no-op, it
    raises. *)
Lemma db_disconnect_twice_raises :
  Connection.DBDopen (Connection.dbd Samples.closed_connection) = false /\
  fst (Connection.db_disconnect Samples.open_connection) = Returns tt /\
  fst (Connection.db_disconnect Samples.closed_connection) <> Returns tt /\
  fst (Connection.db_disconnect Samples.closed_connection) =
    Raises (Mysql_error "Mysql.disconnect called with closed connection").
Proof.
  split; [reflexivity|]. split; [reflexivity|].
  split; [discriminate|reflexivity].
Qed.

(** C1 at its failing inputs.  On a closed connection the stubs without
    [check_dbd] ([db_list_dbs], [db_affected], [db_insert_id],
    [db_host_info], [db_server_info], [db_proto_info]) do not raise: each
    calls the library with the word [Val_false] that [db_disconnect]
    stored over the session pointer, which is undefined behaviour. *)
Theorem unguarded_stubs_call_the_library_when_closed :
  Connection.DBDopen (Connection.dbd Samples.closed_connection) = false /\
  Connection.session Samples.closed_connection = None /\
  Connection.run (Connection.List_dbs None) Samples.closed_connection =
    (Undefined,
     Connection.log Connection.mysql_list_dbs Connection.Val_false
       Samples.closed_connection) /\
  (forall op, Connection.guard_name op = None ->
     exists call,
       Connection.run op Samples.closed_connection =
         (Undefined,
          Connection.log call Connection.Val_false
            Samples.closed_connection)).
Proof.
  split; [reflexivity|]. split; [reflexivity|]. split; [reflexivity|].
  intros op Hg. destruct op; simpl in Hg; try discriminate;
    eexists; reflexivity.
Qed.

(** C10.  On an open connection [db_errmsg] returns [None] exactly when
    [mysql_error] gives NULL or the empty string, returns [Some] of the
    whole message otherwise, and never returns [Some] of the empty
    string. *)
Theorem db_errmsg_none_iff_no_message (s : Connection.state) :
  Connection.connected s ->
  let msg := Connection.error_text (Connection.peer s) in
  let s' :=
    Connection.log Connection.mysql_error
      (Connection.DBDmysql (Connection.dbd s)) s in
  (Connection.db_errmsg s = (Returns None, s') <->
   msg = None \/ msg = Some EmptyString) /\
  (forall text, msg = Some text -> text <> EmptyString ->
                Connection.db_errmsg s = (Returns (Some text), s')) /\
  fst (Connection.db_errmsg s) <> Returns (Some EmptyString).
Proof.
  intros [Ho Hs] msg s'.
  assert (Hrun : Connection.db_errmsg s =
                 (Returns (match msg with
                           | None => None
                           | Some EmptyString => None
                           | Some text => Some text
                           end), s')).
  { unfold Connection.db_errmsg.
    unfold bind at 1. rewrite check_dbd_open by done.
    unfold bind at 1. unfold get at 1.
    unfold bind at 1. rewrite native_live by done.
    unfold ret. fold msg. f_equal. f_equal.
    destruct msg as [[|c text]|]; try reflexivity.
    unfold val_str_option, strlen. by rewrite substring_whole. }
  rewrite Hrun. split; [|split].
  - split.
    + intros H. destruct msg as [[|c text]|]; auto. discriminate.
    + intros [->| ->]; reflexivity.
  - intros text -> Hne. destruct text; [contradiction|reflexivity].
  - simpl. destruct msg as [[|c text]|]; discriminate.
Qed.

Lemma db_errmsg_none_iff_no_message_witness :
  Connection.connected Samples.failed_connection /\
  Connection.connected Samples.open_connection /\
  fst (Connection.db_errmsg Samples.failed_connection) =
    Returns (Some "Unknown database 'nope'") /\
  fst (Connection.db_errmsg Samples.open_connection) = Returns None.
Proof.
  assert (Hf : Connection.connected Samples.failed_connection)
    by (split; reflexivity).
  assert (Ho : Connection.connected Samples.open_connection)
    by (split; reflexivity).
  split; [exact Hf|]. split; [exact Ho|]. split.
  - destruct (db_errmsg_none_iff_no_message Samples.failed_connection Hf)
      as (_ & Hsome & _).
    rewrite (Hsome "Unknown database 'nope'"); [reflexivity..|discriminate].
  - destruct (db_errmsg_none_iff_no_message Samples.open_connection Ho)
      as (Hnone & _ & _).
    destruct Hnone as [_ Hnone]. rewrite Hnone; [reflexivity|].
    right. reflexivity.
Defined.

(** ** Prepared statements *)

Section StmtFacts.

Import Stmt.

Lemma param_count_read (s : state) :
  mysql_stmt_param_count_ s
  = (Returns (param_count (server s)), log mysql_stmt_param_count s).
Proof. reflexivity. Qed.

Lemma execute_len (params : list string) :
  Z.of_nat (length params) < 2 ^ 31 ->
  to_int32 (Z.of_nat (length params)) = Z.of_nat (length params) /\
  to_uint64 (to_int32 (Z.of_nat (length params)))
  = Z.of_nat (length params).
Proof.
  intros H. rewrite to_int32_small by lia.
  split; [reflexivity|]. apply to_uint64_small. lia.
Qed.

End StmtFacts.

(** C3.  When the number of parameters (an [int], so below 2^31) differs
    from the statement's parameter count P (below 2^32, what [%u]
    prints), [caml_mysql_stmt_execute] raises the error whose text holds
    both numbers, and all it has done is read the parameter count twice:
    no allocation, no bind, no execute. *)
Theorem execute_rejects_wrong_param_count
    (s : Stmt.state) (stmt : Z) (params : list string) :
  Z.of_nat (length params) < 2 ^ 31 ->
  0 <= Stmt.param_count (Stmt.server s) < 2 ^ 32 ->
  Z.of_nat (length params) <> Stmt.param_count (Stmt.server s) ->
  exists s',
    Stmt.caml_mysql_stmt_execute stmt params s =
      (Raises
         (Mysql_error
            (substring 0 1023
               (String.append "P.execute : Got "
                  (String.append (decimal (Z.of_nat (length params)))
                     (String.append " parameters, but expected "
                        (decimal (Stmt.param_count (Stmt.server s)))))))),
       s') /\
    Stmt.trace s' =
      Stmt.trace s ++
        [Stmt.mysql_stmt_param_count; Stmt.mysql_stmt_param_count] /\
    Stmt.heap s' = Stmt.heap s /\
    Stmt.brk s' = Stmt.brk s /\
    Stmt.server s' = Stmt.server s.
Proof.
  intros Hlen HP Hne.
  destruct (execute_len params Hlen) as [H32 H64].
  eexists. split.
  - unfold Stmt.caml_mysql_stmt_execute. cbv zeta.
    unfold bind at 1. rewrite param_count_read. cbv beta iota.
    rewrite H64, H32.
    destruct (Z.eqb_spec (Z.of_nat (length params))
                (Stmt.param_count (Stmt.server s))); [contradiction|].
    cbn [negb].
    unfold bind at 1. rewrite param_count_read. cbv beta iota.
    unfold mysqlfailmsg, raise. simpl Stmt.server.
    do 3 f_equal. cbn [format Ascii.eqb Bool.eqb].
    rewrite (Z.mod_small (Stmt.param_count (Stmt.server s))) by lia.
    rewrite append_empty. reflexivity.
  - simpl. rewrite <- app_assoc. auto.
Qed.

Lemma execute_rejects_wrong_param_count_witness :
  Z.of_nat (length ["x"]) < 2 ^ 31 /\
  0 <= Stmt.param_count
         (Stmt.server (Stmt.initial Samples.two_columns "?")) < 2 ^ 32 /\
  Z.of_nat (length ["x"])
  <> Stmt.param_count
       (Stmt.server (Stmt.initial Samples.two_columns "?")) /\
  fst (Stmt.caml_mysql_stmt_execute 77 ["x"]
         (Stmt.initial Samples.two_columns "?"))
  = Raises (Mysql_error "P.execute : Got 1 parameters, but expected 0").
Proof.
  assert (H1 : Z.of_nat (length ["x"]) < 2 ^ 31) by (simpl; lia).
  assert (H2 : 0 <= Stmt.param_count
                      (Stmt.server (Stmt.initial Samples.two_columns "?"))
               < 2 ^ 32) by (simpl; lia).
  assert (H3 : Z.of_nat (length ["x"])
               <> Stmt.param_count
                    (Stmt.server (Stmt.initial Samples.two_columns "?")))
    by (simpl; discriminate).
  split; [exact H1|]. split; [exact H2|]. split; [exact H3|].
  destruct (execute_rejects_wrong_param_count
              (Stmt.initial Samples.two_columns "?") 77 ["x"] H1 H2 H3)
    as (s' & -> & _).
  reflexivity.
Defined.

Section RowFacts.

Import Stmt.

Lemma set_heap_same (s : state) : set_heap (heap s) s = s.
Proof. by destruct s. Qed.

Lemma load_live (s : state) (a : nat) (row : row_t) :
  heap s !! a = Some row -> load a s = (Returns row, s).
Proof. intros H. unfold load, bind, get. by rewrite H. Qed.

Lemma store_live (s : state) (a : nat) (row row' : row_t) :
  heap s !! a = Some row ->
  store a row' s = (Returns tt, set_heap (<[a := row']> (heap s)) s).
Proof. intros H. unfold store, bind, get. by rewrite H. Qed.

Lemma destroy_row_live (s : state) (a : nat) (row : row_t) :
  heap s !! a = Some row ->
  destroy_row a s
  = (Returns tt, log (Free a) (set_heap (delete a (heap s)) s)).
Proof. intros H. unfold destroy_row, bind, get. by rewrite H. Qed.

(** A loop whose steps only rewrite the row at [a] ends with the row at
    [a] rewritten and nothing else changed. *)
Lemma row_loop (a n : nat) (step : nat -> M state unit) :
  (forall i s row,
      (i < n)%nat -> heap s !! a = Some row -> length (row_bind row) = n ->
      exists row',
        step i s = (Returns tt, set_heap (<[a := row']> (heap s)) s) /\
        length (row_bind row') = n) ->
  forall k i s row,
    (i + k = n)%nat -> heap s !! a = Some row -> length (row_bind row) = n ->
    exists row',
      for_loop k i (fun j _ => step j) tt s
      = (Returns tt, set_heap (<[a := row']> (heap s)) s) /\
      length (row_bind row') = n.
Proof.
  intros Hstep. induction k as [|k IH]; intros i s row Hik Ha Hlen.
  - exists row. split; [|exact Hlen]. simpl. unfold ret.
    rewrite insert_id by done. by rewrite set_heap_same.
  - destruct (Hstep i s row) as (row1 & Hs1 & Hl1); [lia|done|done|].
    simpl. unfold bind. rewrite Hs1.
    destruct (IH (S i) (set_heap (<[a := row1]> (heap s)) s) row1)
      as (row2 & Hs2 & Hl2); [lia|apply lookup_insert_eq|done|].
    rewrite Hs2. exists row2. split; [|exact Hl2].
    simpl. by rewrite insert_insert_eq.
Qed.

Lemma set_param_step (a : nat) (params : list string) (i : nat)
    (s : state) (row : row_t) :
  (i < length params)%nat ->
  heap s !! a = Some row -> length (row_bind row) = length params ->
  exists row',
    match params !! i with
    | Some str => set_param a str (String.length str) i
    | None => undefined
    end s = (Returns tt, set_heap (<[a := row']> (heap s)) s) /\
    length (row_bind row') = length params.
Proof.
  intros Hi Ha Hlen.
  destruct (lookup_lt_is_Some_2 params i Hi) as [str ->].
  destruct (lookup_lt_is_Some_2 (row_bind row) i) as [b Hb]; [lia|].
  unfold set_param. unfold bind at 1. rewrite (load_live s a row Ha).
  rewrite Hb. eexists. split; [by eapply store_live|].
  simpl. by rewrite length_insert.
Qed.

Lemma bind_result_step (a n i : nat) (s : state) (row : row_t) :
  (i < n)%nat ->
  heap s !! a = Some row -> length (row_bind row) = n ->
  exists row',
    bind_result a i s = (Returns tt, set_heap (<[a := row']> (heap s)) s) /\
    length (row_bind row') = n.
Proof.
  intros Hi Ha Hlen.
  destruct (lookup_lt_is_Some_2 (row_bind row) i) as [b Hb]; [lia|].
  unfold bind_result. unfold bind at 1. rewrite (load_live s a row Ha).
  rewrite Hb. eexists. split; [by eapply store_live|].
  simpl. by rewrite length_insert.
Qed.

End RowFacts.

Section ExecuteFacts.

Import Stmt.

Lemma create_row_ok (stmt : Z) (count : nat) (s : state) :
  head (malloc_fails s) <> Some true ->
  create_row stmt count s =
    (Returns (Some (brk s)),
     {| heap :=
          <[brk s :=
             {| row_count := count; row_stmt := stmt;
                row_bind := replicate count zero_bind;
                row_length := replicate count O;
                row_error := replicate count false;
                row_is_null := replicate count false |}]> (heap s);
        brk := S (brk s); malloc_fails := tail (malloc_fails s);
        strings := strings s; next_string := next_string s;
        fresh_byte := fresh_byte s; server := server s;
        trace := trace s ++ [Malloc (brk s)] |}).
Proof.
  intros H. unfold create_row, bind, get.
  destruct (malloc_fails s) as [|[] rest]; simpl in *;
    [reflexivity|congruence|reflexivity].
Qed.

Lemma create_row_null (stmt : Z) (count : nat) (s : state) rest :
  malloc_fails s = true :: rest ->
  create_row stmt count s =
    (Returns None,
     {| heap := heap s; brk := brk s; malloc_fails := rest;
        strings := strings s; next_string := next_string s;
        fresh_byte := fresh_byte s; server := server s;
        trace := trace s |}).
Proof. intros H. unfold create_row, bind, get. by rewrite H. Qed.

Lemma bind_param_read (r : nat) (s : state) :
  mysql_stmt_bind_param_ r s
  = (Returns (bind_param_rc (server s)), log (mysql_stmt_bind_param r) s).
Proof. reflexivity. Qed.

Lemma execute_read (s : state) :
  mysql_stmt_execute_ s
  = (Returns (execute_rc (server s)), log mysql_stmt_execute s).
Proof. reflexivity. Qed.

Lemma field_count_read (s : state) :
  mysql_stmt_field_count_ s
  = (Returns (field_count (server s)), log mysql_stmt_field_count s).
Proof. reflexivity. Qed.

Lemma bind_result_refused (r : nat) (s : state) :
  bind_result_rc (server s) = true ->
  mysql_stmt_bind_result_ r s
  = (Returns true, log (mysql_stmt_bind_result r) s).
Proof.
  intros H. unfold mysql_stmt_bind_result_, bind, modify, get. simpl.
  by rewrite H.
Qed.

Lemma bind_result_accepted (r : nat) (s : state) :
  bind_result_rc (server s) = false ->
  exists m',
    mysql_stmt_bind_result_ r s
    = (Returns false, set_server m' (log (mysql_stmt_bind_result r) s)).
Proof.
  intros H. unfold mysql_stmt_bind_result_, bind, modify, get. simpl.
  rewrite H. eexists. reflexivity.
Qed.

End ExecuteFacts.

Ltac stmt_state :=
  cbn [Stmt.heap Stmt.brk Stmt.malloc_fails Stmt.strings Stmt.next_string
       Stmt.fresh_byte Stmt.server Stmt.trace Stmt.log Stmt.set_heap
       Stmt.set_server Stmt.set_strings] in *.

(** C9.  Once the parameter count matches and the parameter [row_t] has
    been allocated at address [a], [caml_mysql_stmt_execute] frees it on
    every path: straight after a refused [mysql_stmt_bind_param], straight
    after a failed [mysql_stmt_execute] (before the error is raised), and
    after a successful [mysql_stmt_execute] before the result columns are
    looked at.  In all cases the row at [a] is no longer live at the end,
    it is freed once, and the stub has defined behaviour. *)
Theorem execute_releases_param_row
    (s : Stmt.state) (stmt : Z) (params : list string) :
  Z.of_nat (length params) < 2 ^ 31 ->
  Z.of_nat (length params) = Stmt.param_count (Stmt.server s) ->
  head (Stmt.malloc_fails s) <> Some true ->
  let a := Stmt.brk s in
  let m := Stmt.server s in
  let bound :=
    Stmt.trace s ++
      [Stmt.mysql_stmt_param_count; Stmt.Malloc a;
       Stmt.mysql_stmt_bind_param a] in
  exists o s',
    Stmt.caml_mysql_stmt_execute stmt params s = (o, s') /\
    o <> Undefined /\
    Stmt.heap s' !! a = None /\
    (Stmt.bind_param_rc m = true ->
     o = Raises (Mysql_error "P.execute : mysql_stmt_bind_param") /\
     Stmt.trace s' = bound ++ [Stmt.Free a]) /\
    (Stmt.bind_param_rc m = false -> Stmt.execute_rc m <> 0 ->
     o = Raises (Mysql_error "P.execute : mysql_stmt_execute") /\
     Stmt.trace s' = bound ++ [Stmt.mysql_stmt_execute; Stmt.Free a]) /\
    (Stmt.bind_param_rc m = false -> Stmt.execute_rc m = 0 ->
     exists rest,
       Stmt.trace s' =
         bound ++ [Stmt.mysql_stmt_execute; Stmt.Free a;
                   Stmt.mysql_stmt_field_count] ++ rest /\
       Stmt.Free a ∉ rest).
Proof.
  intros Hlen Hcount Hmalloc a m bound.
  destruct (execute_len params Hlen) as [H32 H64].
  unfold Stmt.caml_mysql_stmt_execute. cbv zeta.
  unfold bind at 1. rewrite param_count_read. cbv beta iota.
  rewrite H64, H32, Hcount, Z.eqb_refl. cbn [negb]. rewrite <- Hcount.
  rewrite Nat2Z.id.
  unfold bind at 1. rewrite create_row_ok by exact Hmalloc.
  cbv beta iota. stmt_state.
  match goal with
  | |- context [bind (for_loop _ _ _ _) _ ?st] => set (s1 := st)
  end.
  destruct (row_loop a (length params)
              (fun i => match params !! i with
                        | Some str =>
                            Stmt.set_param a str (String.length str) i
                        | None => undefined
                        end)
              ltac:(intros i s0 r0 Hi Ha Hl;
                    by apply (set_param_step a params i s0 r0))
              (length params) O s1
              {| Stmt.row_count := length params; Stmt.row_stmt := stmt;
                 Stmt.row_bind := replicate (length params) Stmt.zero_bind;
                 Stmt.row_length := replicate (length params) O;
                 Stmt.row_error := replicate (length params) false;
                 Stmt.row_is_null := replicate (length params) false |})
    as (row1 & Hloop & Hl1);
    [lia | apply lookup_insert_eq | apply length_replicate |].
  fold a. unfold bind at 1. rewrite Hloop. cbv beta iota.
  unfold bind at 1. rewrite bind_param_read. cbv beta iota.
  subst s1 m bound. stmt_state.
  destruct (Stmt.bind_param_rc (Stmt.server s)) eqn:Hbp.
  { unfold bind at 1.
    erewrite destroy_row_live by (stmt_state; apply lookup_insert_eq).
    cbv beta iota. unfold mysqlfailwith, raise. stmt_state.
    do 2 eexists. split; [reflexivity|]. stmt_state.
    split; [discriminate|]. split; [apply lookup_delete_eq|].
    split; [|split; intros; discriminate].
    intros _. split; [reflexivity|].
    by rewrite <- !app_assoc. }
  unfold bind at 1. rewrite execute_read. cbv beta iota. stmt_state.
  destruct (Z.eqb_spec (Stmt.execute_rc (Stmt.server s)) 0) as [Hrc|Hrc];
    cbn [negb].
  2:{ unfold bind at 1.
      erewrite destroy_row_live by (stmt_state; apply lookup_insert_eq).
      cbv beta iota. unfold mysqlfailwith, raise. stmt_state.
      do 2 eexists. split; [reflexivity|]. stmt_state.
      split; [discriminate|]. split; [apply lookup_delete_eq|].
      split; [intros; discriminate|]. split; [|intros; contradiction].
      intros _ _. split; [reflexivity|].
      by rewrite <- !app_assoc. }
  unfold bind at 1.
  erewrite destroy_row_live by (stmt_state; apply lookup_insert_eq).
  cbv beta iota.
  unfold bind at 1. rewrite field_count_read. cbv beta iota. stmt_state.
  match goal with
  | |- context [bind (Stmt.create_row _ _) _ ?st] => set (s5 := st)
  end.
  assert (Hh5 : Stmt.heap s5 !! a = None)
    by (subst s5; stmt_state; apply lookup_delete_eq).
  assert (Ht5 : Stmt.trace s5 =
                (Stmt.trace s ++
                   [Stmt.mysql_stmt_param_count; Stmt.Malloc a;
                    Stmt.mysql_stmt_bind_param a]) ++
                [Stmt.mysql_stmt_execute; Stmt.Free a;
                 Stmt.mysql_stmt_field_count])
    by (subst s5; stmt_state; by rewrite <- !app_assoc).
  assert (Hb5 : Stmt.brk s5 = S a) by reflexivity.
  assert (Hsv5 : Stmt.server s5 = Stmt.server s) by reflexivity.
  clearbody s5. clear Hloop.
  assert (Hfin : forall (o : outcome nat) s' rest,
             o <> Undefined -> Stmt.heap s' !! a = None ->
             Stmt.trace s' = Stmt.trace s5 ++ rest ->
             Stmt.Free a ∉ rest ->
             o ≠ Undefined
             ∧ Stmt.heap s' !! a = None
             ∧ (false = true
                → o = Raises
                        (Mysql_error "P.execute : mysql_stmt_bind_param")
                  ∧ Stmt.trace s' =
                    (Stmt.trace s ++
                       [Stmt.mysql_stmt_param_count; Stmt.Malloc a;
                        Stmt.mysql_stmt_bind_param a]) ++ [Stmt.Free a])
             ∧ (false = false
                → Stmt.execute_rc (Stmt.server s) ≠ 0
                → o = Raises (Mysql_error "P.execute : mysql_stmt_execute")
                  ∧ Stmt.trace s' =
                    (Stmt.trace s ++
                       [Stmt.mysql_stmt_param_count; Stmt.Malloc a;
                        Stmt.mysql_stmt_bind_param a]) ++
                    [Stmt.mysql_stmt_execute; Stmt.Free a])
             ∧ (false = false
                → Stmt.execute_rc (Stmt.server s) = 0
                → ∃ rest : list Stmt.event,
                    Stmt.trace s' =
                    (Stmt.trace s ++
                       [Stmt.mysql_stmt_param_count; Stmt.Malloc a;
                        Stmt.mysql_stmt_bind_param a]) ++
                    [Stmt.mysql_stmt_execute; Stmt.Free a;
                     Stmt.mysql_stmt_field_count] ++ rest
                    ∧ Stmt.Free a ∉ rest)).
  { intros o s' rest Ho Hh Ht Hr. split; [exact Ho|]. split; [exact Hh|].
    split; [intros; discriminate|]. split; [intros; contradiction|].
    intros _ _. exists rest. split; [|exact Hr].
    rewrite Ht, Ht5. by rewrite <- !app_assoc. }
  assert (Hfree : forall r, r <> a ->
             Stmt.Free a ∉ [Stmt.Malloc r; Stmt.mysql_stmt_bind_result r;
                            Stmt.Free r]).
  { intros r Hr Hin. rewrite !elem_of_cons, elem_of_nil in Hin.
    destruct Hin as [?|[?|[Heq|[]]]]; try discriminate.
    inversion Heq. congruence. }
  destruct (decide (head (Stmt.malloc_fails s5) = Some true)) as [Hmf|Hmf].
  { destruct (Stmt.malloc_fails s5) as [|f fails] eqn:Hfails;
      [discriminate|]. simpl in Hmf. inversion Hmf; subst f.
    unfold bind at 1. rewrite (create_row_null _ _ _ fails Hfails).
    cbv beta iota. unfold mysqlfailwith, raise.
    do 2 eexists. split; [reflexivity|].
    apply (Hfin _ _ []); stmt_state;
      [discriminate|exact Hh5|by rewrite app_nil_r|apply not_elem_of_nil]. }
  unfold bind at 1. rewrite create_row_ok by exact Hmf.
  cbv beta iota. rewrite Hb5, Hsv5.
  match goal with
  | |- context [bind (if _ then _ else _) _ ?st] => set (s6 := st)
  end.
  destruct (Nat.eqb_spec (Stmt.field_count (Stmt.server s)) 0) as [Hfc|Hfc].
  { do 2 eexists. split; [reflexivity|].
    apply (Hfin _ _ [Stmt.Malloc (S a)]); subst s6; stmt_state;
      [discriminate| |reflexivity|].
    - rewrite lookup_insert_ne by lia. exact Hh5.
    - intros Hin. rewrite !elem_of_cons, elem_of_nil in Hin.
      destruct Hin as [?|[]]; discriminate. }
  destruct (row_loop (S a) (Stmt.field_count (Stmt.server s))
              (fun i => Stmt.bind_result (S a) i)
              ltac:(intros i s0 r0 Hi Ha Hl;
                    by apply (bind_result_step (S a) _ i s0 r0))
              (Stmt.field_count (Stmt.server s)) O s6
              {| Stmt.row_count := Stmt.field_count (Stmt.server s);
                 Stmt.row_stmt := stmt;
                 Stmt.row_bind :=
                   replicate (Stmt.field_count (Stmt.server s))
                     Stmt.zero_bind;
                 Stmt.row_length :=
                   replicate (Stmt.field_count (Stmt.server s)) O;
                 Stmt.row_error :=
                   replicate (Stmt.field_count (Stmt.server s)) false;
                 Stmt.row_is_null :=
                   replicate (Stmt.field_count (Stmt.server s)) false |})
    as (row2 & Hloop2 & Hl2);
    [lia | apply lookup_insert_eq | apply length_replicate |].
  unfold bind at 1. unfold bind at 1. rewrite Hloop2. cbv beta iota.
  destruct (Stmt.bind_result_rc (Stmt.server s)) eqn:Hbr.
  - unfold bind at 1. rewrite bind_result_refused by exact Hbr.
    cbv beta iota. unfold bind at 1.
    erewrite destroy_row_live by (stmt_state; apply lookup_insert_eq).
    cbv beta iota. unfold mysqlfailwith, raise.
    do 2 eexists. split; [reflexivity|].
    apply (Hfin _ _ [Stmt.Malloc (S a); Stmt.mysql_stmt_bind_result (S a);
                     Stmt.Free (S a)]); subst s6; stmt_state.
    + discriminate.
    + rewrite lookup_delete_ne by lia. rewrite !lookup_insert_ne by lia.
      exact Hh5.
    + by rewrite <- !app_assoc.
    + apply Hfree. lia.
  - destruct (bind_result_accepted (S a)
                (Stmt.set_heap (<[S a:=row2]> (Stmt.heap s6)) s6) Hbr)
      as [m' Hm'].
    unfold bind at 1. rewrite Hm'. cbv beta iota. unfold ret.
    do 2 eexists. split; [reflexivity|].
    apply (Hfin _ _ [Stmt.Malloc (S a); Stmt.mysql_stmt_bind_result (S a)]);
      subst s6; stmt_state.
    + discriminate.
    + rewrite !lookup_insert_ne by lia. exact Hh5.
    + by rewrite <- !app_assoc.
    + intros Hin. rewrite !elem_of_cons, elem_of_nil in Hin.
      destruct Hin as [?|[?|[]]]; discriminate.
Qed.


Lemma execute_releases_param_row_witness :
  Z.of_nat (length ["x"]) < 2 ^ 31 /\
  Z.of_nat (length ["x"])
  = Stmt.param_count
      (Stmt.server (Stmt.initial Samples.failing_execute "?")) /\
  head (Stmt.malloc_fails (Stmt.initial Samples.failing_execute "?"))
  <> Some true /\
  exists s',
    Stmt.caml_mysql_stmt_execute 77 ["x"]
      (Stmt.initial Samples.failing_execute "?")
    = (Raises (Mysql_error "P.execute : mysql_stmt_execute"), s') /\
    Stmt.heap s' !! 1%nat = None.
Proof.
  assert (H1 : Z.of_nat (length ["x"]) < 2 ^ 31) by (simpl; lia).
  assert (H2 : Z.of_nat (length ["x"])
               = Stmt.param_count
                   (Stmt.server (Stmt.initial Samples.failing_execute "?")))
    by reflexivity.
  assert (H3 : head (Stmt.malloc_fails
                       (Stmt.initial Samples.failing_execute "?"))
               <> Some true) by (simpl; discriminate).
  split; [exact H1|]. split; [exact H2|]. split; [exact H3|].
  destruct (execute_releases_param_row
              (Stmt.initial Samples.failing_execute "?") 77 ["x"] H1 H2 H3)
    as (o & s' & Hrun & _ & Hheap & _ & Hexec & _).
  destruct Hexec as [-> _]; [reflexivity|simpl; discriminate|].
  exists s'. split; [exact Hrun|exact Hheap].
Defined.

(** C2 at its failing input.  The statement has two result columns and
    the server sends the row ("a", "b").  [get_column] gives the new
    string to [r->bind[index]] but hands [r->bind], the first bind, to
    [mysql_stmt_fetch_column]: the second column lands in the string of
    the first one and its own string keeps the uninitialised byte. *)
Theorem second_column_lands_in_first_buffer (junk : ascii) :
  match
    Stmt.caml_mysql_stmt_fetch Stmt.header 2 (Samples.executed junk)
  with
  | (Returns (Some arr), s') =>
      length arr = 2%nat /\
      Stmt.read_row s' arr = [Some "b"; Some (String junk EmptyString)] /\
      Stmt.value <$> Stmt.current (Stmt.server s') = ["a"; "b"]
  | _ => False
  end.
Proof. vm_compute. repeat split. Qed.

Section FetchFacts.

Import Stmt.

Variable h : mysql_h.

(** With the registered result binds pointing into a live row (or no
    result bind registered), [mysql_stmt_fetch] returns the coming code
    and frees nothing. *)
Lemma fetch_returns_next_rc (s : state) :
  (forall a, result_bind (server s) = Some a -> is_Some (heap s !! a)) ->
  exists s1,
    mysql_stmt_fetch_ h s = (Returns (next_rc h s), s1) /\
    trace s1 = trace s ++ [mysql_stmt_fetch] /\
    strings s1 = strings s /\
    (forall a, is_Some (heap s !! a) -> is_Some (heap s1 !! a)).
Proof.
  intros Hbound. unfold mysql_stmt_fetch_, next_rc, bind, modify, get.
  simpl. destruct (replies (server s)) as [|reply rest].
  - eexists. split; [reflexivity|]. simpl. auto.
  - simpl. destruct (result_bind (server s)) as [a|] eqn:Hrb.
    + destruct (Hbound a eq_refl) as [row Hrow].
      unfold load, store, bind, get. simpl. rewrite Hrow. simpl.
      rewrite Hrow. simpl. eexists. split; [reflexivity|].
      simpl. split; [reflexivity|]. split; [reflexivity|].
      intros b Hb. destruct (decide (a = b)) as [->|Hne].
      * rewrite lookup_insert_eq. eauto.
      * by rewrite lookup_insert_ne.
    + eexists. split; [reflexivity|]. simpl. auto.
Qed.

End FetchFacts.

(** C8.  On a live handle, when the code of [mysql_stmt_fetch] is neither
    0 nor [MYSQL_DATA_TRUNCATED] (end of data, or an error),
    [caml_mysql_stmt_fetch] returns [None] without touching a column; a
    row is returned only for one of those two codes. *)
Theorem stmt_fetch_none_unless_row_code
    (h : Stmt.mysql_h) (s : Stmt.state) (result : nat) :
  is_Some (Stmt.heap s !! result) ->
  (forall a, Stmt.result_bind (Stmt.server s) = Some a ->
             is_Some (Stmt.heap s !! a)) ->
  (Stmt.next_rc h s <> 0 ->
   Stmt.next_rc h s <> Stmt.MYSQL_DATA_TRUNCATED h ->
   exists s',
     Stmt.caml_mysql_stmt_fetch h result s = (Returns None, s') /\
     Stmt.trace s' = Stmt.trace s ++ [Stmt.mysql_stmt_fetch] /\
     Stmt.strings s' = Stmt.strings s) /\
  (forall arr s',
     Stmt.caml_mysql_stmt_fetch h result s = (Returns (Some arr), s') ->
     Stmt.next_rc h s = 0 \/
     Stmt.next_rc h s = Stmt.MYSQL_DATA_TRUNCATED h).
Proof.
  intros [row Hrow] Hbound.
  destruct (fetch_returns_next_rc h s Hbound)
    as (s1 & Hfetch & Htrace & Hstrings & _).
  assert (Hnone :
    Stmt.next_rc h s <> 0 ->
    Stmt.next_rc h s <> Stmt.MYSQL_DATA_TRUNCATED h ->
    Stmt.caml_mysql_stmt_fetch h result s = (Returns None, s1)).
  { intros H0 Ht. unfold Stmt.caml_mysql_stmt_fetch.
    unfold bind at 1. rewrite (load_live s result row Hrow).
    cbv beta iota. unfold bind at 1. rewrite Hfetch. cbv beta iota.
    destruct (Z.eqb_spec 0 (Stmt.next_rc h s)); [congruence|].
    destruct (Z.eqb_spec (Stmt.MYSQL_DATA_TRUNCATED h) (Stmt.next_rc h s));
      [congruence|].
    reflexivity. }
  split.
  - intros H0 Ht. exists s1. split; [by apply Hnone|]. auto.
  - intros arr s' Hrun.
    destruct (Z.eq_dec (Stmt.next_rc h s) 0) as [|H0]; [by left|].
    destruct (Z.eq_dec (Stmt.next_rc h s) (Stmt.MYSQL_DATA_TRUNCATED h))
      as [|Ht]; [by right|].
    rewrite (Hnone H0 Ht) in Hrun. discriminate.
Qed.

Lemma stmt_fetch_none_unless_row_code_witness :
  is_Some (Stmt.heap (Samples.executed "?") !! 2%nat) /\
  (forall a,
     Stmt.result_bind (Stmt.server (Samples.executed "?")) = Some a ->
     is_Some (Stmt.heap (Samples.executed "?") !! a)) /\
  fst (Stmt.caml_mysql_stmt_fetch Stmt.header 2
         (snd (Stmt.caml_mysql_stmt_fetch Stmt.header 2
                 (Samples.executed "?")))) = Returns None.
Proof.
  assert (H1 : is_Some (Stmt.heap (Samples.executed "?") !! 2%nat))
    by (vm_compute; eauto).
  assert (H2 : forall a,
             Stmt.result_bind (Stmt.server (Samples.executed "?")) = Some a ->
             is_Some (Stmt.heap (Samples.executed "?") !! a))
    by (intros a Ha; vm_compute in Ha; inversion Ha; subst a; exact H1).
  split; [exact H1|]. split; [exact H2|].
  set (s1 := snd (Stmt.caml_mysql_stmt_fetch Stmt.header 2
                    (Samples.executed "?"))).
  assert (H3 : is_Some (Stmt.heap s1 !! 2%nat)) by (vm_compute; eauto).
  assert (H4 : forall a,
             Stmt.result_bind (Stmt.server s1) = Some a ->
             is_Some (Stmt.heap s1 !! a))
    by (intros a Ha; vm_compute in Ha; inversion Ha; subst a; exact H3).
  destruct (stmt_fetch_none_unless_row_code Stmt.header s1 2%nat H3 H4)
    as [Hnone _].
  destruct Hnone as (s' & -> & _); [vm_compute; discriminate..|].
  reflexivity.
Defined.

(** ** Rows of a prepared statement, column by column *)

Section ColumnFacts.

Import Stmt.

Variable h : mysql_h.

Lemma length_list_ascii_of_string (s : string) :
  length (list_ascii_of_string s) = String.length s.
Proof. induction s as [|c s IH]; simpl; [reflexivity|by rewrite IH]. Qed.

Lemma length_string_of_list_ascii (l : list ascii) :
  String.length (string_of_list_ascii l) = length l.
Proof. induction l as [|c l IH]; simpl; [reflexivity|by rewrite IH]. Qed.

Lemma copy_into_length (old data : string) (cap : nat) :
  (cap <= String.length old)%nat ->
  String.length (copy_into old cap data) = String.length old.
Proof.
  intros Hcap. unfold copy_into.
  rewrite length_string_of_list_ascii, length_app, length_take.
  rewrite <- (length_list_ascii_of_string old) in *.
  destruct (Nat.ltb_spec
              (Nat.min (length (list_ascii_of_string data)) cap) cap);
    simpl; rewrite length_drop; lia.
Qed.

Lemma get_column_zero (r i : nat) (s : state) (row : row_t) :
  heap s !! r = Some row ->
  row_length row !! i = Some O ->
  (i < length (row_bind row))%nat ->
  get_column r i s = (Returns None, s).
Proof.
  intros Hr Hlen Hi. unfold get_column.
  unfold bind at 1. rewrite (load_live s r row Hr). cbv beta iota.
  rewrite Hlen.
  destruct (lookup_lt_is_Some_2 (row_bind row) i Hi) as [b ->].
  reflexivity.
Qed.

Lemma fetch_column_writes (first : MYSQL_BIND) (column : nat) (s : state) :
  match buffer first with
  | NULL => buffer_length first = O
  | String_val l =>
      exists old, strings s !! l = Some old /\
                  (buffer_length first <= String.length old)%nat
  | Bytes_of _ => False
  end ->
  exists s',
    mysql_stmt_fetch_column_ first column s = (Returns tt, s') /\
    heap s' = heap s /\ next_string s' = next_string s /\
    server s' = server s /\
    (forall l str, strings s !! l = Some str ->
       exists str', strings s' !! l = Some str' /\
                    String.length str' = String.length str) /\
    (forall l, is_Some (strings s' !! l) -> is_Some (strings s !! l)).
Proof.
  intros Hfirst.
  assert (Hsame : exists s',
             (Returns tt, log (mysql_stmt_fetch_column column) s)
             = (Returns tt, s') /\
             heap s' = heap s /\ next_string s' = next_string s /\
             server s' = server s /\
             (forall l str, strings s !! l = Some str ->
                exists str', strings s' !! l = Some str' /\
                             String.length str' = String.length str) /\
             (forall l, is_Some (strings s' !! l) ->
                        is_Some (strings s !! l))).
  { eexists. split; [reflexivity|]. simpl. repeat split; eauto. }
  unfold mysql_stmt_fetch_column_, bind, modify, get. simpl.
  destruct (current (server s) !! column) as [col|]; [|exact Hsame].
  destruct (reported_null col); [exact Hsame|].
  destruct (buffer first) as [|?|l]; [|contradiction|].
  - rewrite Hfirst. exact Hsame.
  - destruct Hfirst as (old & Hold & Hcap). rewrite Hold.
    destruct (Nat.leb_spec (buffer_length first) (String.length old));
      [|lia].
    eexists. split; [reflexivity|]. simpl.
    split; [reflexivity|]. split; [reflexivity|]. split; [reflexivity|].
    split.
    + intros l' str Hl'. destruct (decide (l = l')) as [<-|Hne].
      * rewrite lookup_insert_eq. eexists. split; [reflexivity|].
        rewrite copy_into_length by done. congruence.
      * rewrite lookup_insert_ne by done. eauto.
    + intros l' Hl'. destruct (decide (l = l')) as [<-|Hne]; [eauto|].
      by rewrite lookup_insert_ne in Hl'.
Qed.

Lemma alloc_string_run (len : nat) (s : state) :
  caml_alloc_string len s =
    (Returns (next_string s),
     {| heap := heap s; brk := brk s; malloc_fails := malloc_fails s;
        strings :=
          <[next_string s :=
              string_of_list_ascii (replicate len (fresh_byte s))]>
            (strings s);
        next_string := S (next_string s); fresh_byte := fresh_byte s;
        server := server s; trace := trace s |}).
Proof. reflexivity. Qed.

Lemma get_column_positive (r i len : nat) (s : state) (row : row_t) :
  heap s !! r = Some row ->
  length (row_bind row) = row_count row ->
  first_bind_ok s row ->
  (forall l, is_Some (strings s !! l) -> (l < next_string s)%nat) ->
  row_length row !! i = Some len -> (0 < len)%nat ->
  (i < row_count row)%nat ->
  exists s' row',
    get_column r i s = (Returns (Some (next_string s)), s') /\
    heap s' !! r = Some row' /\
    row_count row' = row_count row /\
    row_length row' = row_length row /\
    length (row_bind row') = row_count row /\
    first_bind_ok s' row' /\
    next_string s' = S (next_string s) /\
    server s' = server s /\
    (forall l, is_Some (strings s' !! l) -> (l < next_string s')%nat) /\
    (forall l str, strings s !! l = Some str ->
       exists str', strings s' !! l = Some str' /\
                    String.length str' = String.length str) /\
    (exists str, strings s' !! next_string s = Some str /\
                 String.length str = len).
Proof.
  intros Hr Hbinds Hfirst Hstore Hlen Hpos Hi.
  destruct (lookup_lt_is_Some_2 (row_bind row) i) as [b Hb]; [lia|].
  unfold get_column.
  unfold bind at 1. rewrite (load_live s r row Hr). cbv beta iota.
  rewrite Hlen, Hb.
  destruct (Nat.ltb_spec 0 len); [|lia].
  unfold bind at 1. rewrite alloc_string_run. cbv beta iota.
  set (l := next_string s).
  set (junk := string_of_list_ascii (replicate len (fresh_byte s))).
  assert (Hjunk : String.length junk = len)
    by (subst junk; by rewrite length_string_of_list_ascii,
                               length_replicate).
  set (sa := {| heap := heap s; brk := brk s;
                malloc_fails := malloc_fails s;
                strings := <[l := junk]> (strings s);
                next_string := S l; fresh_byte := fresh_byte s;
                server := server s; trace := trace s |}).
  set (row' := {| row_count := row_count row; row_stmt := row_stmt row;
                  row_bind :=
                    <[i := {| buffer_type := buffer_type b;
                              buffer := String_val l;
                              buffer_length := len;
                              length_linked := length_linked b;
                              is_null_linked := is_null_linked b;
                              error_linked := error_linked b |}]>
                      (row_bind row);
                  row_length := row_length row;
                  row_error := row_error row;
                  row_is_null := row_is_null row |}).
  unfold bind at 1. rewrite (store_live sa r row row' Hr). cbv beta iota.
  set (sb := set_heap (<[r := row']> (heap sa)) sa).
  assert (Hrb : heap sb !! r = Some row') by apply lookup_insert_eq.
  unfold bind at 1. rewrite (load_live sb r row' Hrb). cbv beta iota.
  assert (Hfresh : strings s !! l = None).
  { destruct (strings s !! l) eqn:E; [|reflexivity].
    assert (l < next_string s)%nat by (apply Hstore; eauto).
    subst l. lia. }
  assert (Hkeep : forall l' str, strings s !! l' = Some str ->
                                 strings sb !! l' = Some str).
  { intros l' str Hl'. subst sb sa. simpl.
    rewrite lookup_insert_ne; [done|]. intros <-. congruence. }
  destruct (lookup_lt_is_Some_2 (row_bind row') O) as [first Hf0].
  { subst row'. simpl. rewrite length_insert. lia. }
  assert (Hfirst' :
    match buffer first with
    | NULL => buffer_length first = O
    | String_val l0 =>
        exists old, strings sb !! l0 = Some old /\
                    (buffer_length first <= String.length old)%nat
    | Bytes_of _ => False
    end).
  { subst row'. simpl in Hf0. destruct (decide (i = O)) as [->|Hne].
    - rewrite list_lookup_insert_eq in Hf0 by lia.
      inversion Hf0; subst first. simpl.
      exists junk. split; [apply lookup_insert_eq|lia].
    - rewrite list_lookup_insert_ne in Hf0 by done.
      unfold first_bind_ok in Hfirst. rewrite Hf0 in Hfirst.
      destruct (buffer first); [exact Hfirst|exact Hfirst|].
      destruct Hfirst as (old & Hold & Hcap). eauto. }
  rewrite Hf0.
  destruct (fetch_column_writes first i sb Hfirst')
    as (s' & Hrun & Hheap & Hnext & Hserver & Hlens & Hdom).
  unfold bind at 1. rewrite Hrun. cbv beta iota. unfold ret.
  exists s', row'. split; [reflexivity|].
  split; [by rewrite Hheap|]. split; [reflexivity|].
  split; [reflexivity|].
  split; [subst row'; simpl; by rewrite length_insert|].
  split.
  { unfold first_bind_ok. rewrite Hf0.
    destruct (buffer first); [exact Hfirst'|exact Hfirst'|].
    destruct Hfirst' as (old & Hold & Hcap).
    destruct (Hlens _ _ Hold) as (str' & Hstr' & Hl').
    exists str'. split; [exact Hstr'|lia]. }
  split; [by rewrite Hnext|]. split; [by rewrite Hserver|].
  split.
  { intros l' Hl'. apply Hdom in Hl'. rewrite Hnext.
    subst sb sa. simpl in *. destruct (decide (l = l')) as [<-|Hne]; [lia|].
    rewrite lookup_insert_ne in Hl' by done.
    apply Hstore in Hl'. subst l. lia. }
  split.
  { intros l' str Hl'. apply Hlens. by apply Hkeep. }
  destruct (Hlens l junk) as (str' & Hstr' & Hl').
  { subst sb sa. simpl. apply lookup_insert_eq. }
  exists str'. split; [exact Hstr'|congruence].
Qed.

Lemma entry_for_later (s s' : state) (len : nat) (c : option nat) :
  (forall l str, strings s !! l = Some str ->
     exists str', strings s' !! l = Some str' /\
                  String.length str' = String.length str) ->
  entry_for s len c -> entry_for s' len c.
Proof.
  intros Hlens. destruct len as [|len]; simpl; [done|].
  intros (l & str & -> & Hstr & Hl).
  destruct (Hlens _ _ Hstr) as (str' & Hstr' & Hl').
  exists l, str'. split; [reflexivity|]. split; [exact Hstr'|congruence].
Qed.

(** The column loop of [caml_mysql_stmt_fetch] from column [i] on. *)
Lemma fetch_loop (r count : nat) (lens : list nat) :
  forall k i s arr row,
    (i + k = count)%nat ->
    heap s !! r = Some row ->
    row_count row = count -> row_length row = lens ->
    length lens = count -> length (row_bind row) = count ->
    first_bind_ok s row ->
    (forall l, is_Some (strings s !! l) -> (l < next_string s)%nat) ->
    length arr = count ->
    (forall j len, (j < i)%nat -> lens !! j = Some len ->
       exists c, arr !! j = Some c /\ entry_for s len c) ->
    exists arr' s' row',
      for_loop k i
        (fun i arr => c <- get_column r i ;; ret (<[i := c]> arr)) arr s
      = (Returns arr', s') /\
      length arr' = count /\
      heap s' !! r = Some row' /\
      row_count row' = count /\ row_length row' = lens /\
      length (row_bind row') = count /\
      first_bind_ok s' row' /\
      (forall l, is_Some (strings s' !! l) -> (l < next_string s')%nat) /\
      server s' = server s /\
      (forall j len, (j < count)%nat -> lens !! j = Some len ->
         exists c, arr' !! j = Some c /\ entry_for s' len c).
Proof.
  induction k as [|k IH];
    intros i s arr row Hik Hr Hcount Hlens Hll Hbinds Hfirst Hstore Harr
           Hdone.
  - exists arr, s, row. simpl. unfold ret.
    repeat (split; [done|]). intros j len Hj. apply Hdone. lia.
  - destruct (lookup_lt_is_Some_2 lens i) as [len Hlen]; [lia|].
    simpl. unfold bind at 1. unfold bind at 1.
    destruct len as [|len'].
    + rewrite (get_column_zero r i s row Hr); [|congruence|lia].
      cbv beta iota. unfold ret at 1.
      apply (IH (S i) s (<[i := None]> arr) row); try done; [lia| |].
      * by rewrite length_insert.
      * intros j len Hj Hjl. destruct (decide (j = i)) as [->|Hne].
        -- rewrite list_lookup_insert_eq by lia.
           exists None. split; [reflexivity|].
           rewrite Hlen in Hjl. inversion Hjl. reflexivity.
        -- rewrite list_lookup_insert_ne by done. apply Hdone; [lia|done].
    + destruct (get_column_positive r i (S len') s row)
        as (s1 & row1 & Hrun & Hr1 & Hc1 & Hl1 & Hb1 & Hf1 & Hn1 & Hsv1
            & Hst1 & Hkeep & str & Hstr & Hstrlen);
        try done; [congruence|congruence|lia|lia|].
      rewrite Hrun. cbv beta iota. unfold ret at 1.
      destruct (IH (S i) s1 (<[i := Some (next_string s)]> arr) row1)
        as (arr' & s' & row' & Hloop & Harr' & Hr' & Hc' & Hl' & Hb'
            & Hf' & Hst' & Hsv' & Hall);
        try done; [lia|congruence|congruence|congruence|
                   by rewrite length_insert| |].
      * intros j len Hj Hjl. destruct (decide (j = i)) as [->|Hne].
        -- rewrite list_lookup_insert_eq by lia.
           exists (Some (next_string s)). split; [reflexivity|].
           rewrite Hlen in Hjl. inversion Hjl; subst len.
           simpl. eauto.
        -- rewrite list_lookup_insert_ne by done.
           destruct (Hdone j len) as (c & Hc & He); [lia|done|].
           exists c. split; [exact Hc|].
           by apply (entry_for_later s s1).
      * exists arr', s', row'. rewrite Hloop.
        repeat (split; [done|]). split; [congruence|]. exact Hall.
Qed.

Lemma overwrite_length {A} (news old : list A) :
  length (overwrite news old) = length old.
Proof.
  unfold overwrite. rewrite length_app, length_take, length_drop. lia.
Qed.

Lemma overwrite_lookup {A} (news old : list A) (i : nat) (x : A) :
  news !! i = Some x -> (i < length old)%nat ->
  overwrite news old !! i = Some x.
Proof.
  intros Hx Hi. unfold overwrite.
  assert (i < length news)%nat by (by eapply lookup_lt_Some).
  rewrite lookup_app_l by (rewrite length_take; lia).
  rewrite lookup_take_lt by lia. exact Hx.
Qed.

(** [mysql_stmt_fetch] on a fetchable handle: the handle stays
    fetchable, keeps its column count, and holds the reported lengths. *)
Lemma fetch_keeps_fetchable (r : nat) (s : state) (row : row_t) :
  fetchable r s -> heap s !! r = Some row ->
  exists s1 row1,
    mysql_stmt_fetch_ h s = (Returns (next_rc h s), s1) /\
    fetchable r s1 /\
    heap s1 !! r = Some row1 /\
    row_count row1 = row_count row /\
    strings s1 = strings s /\
    (forall reply rest i col,
       result_bind (server s) = Some r ->
       replies (server s) = reply :: rest ->
       fetch_columns reply !! i = Some col -> (i < row_count row)%nat ->
       row_length row1 !! i = Some (reported_length col)).
Proof.
  intros (row0 & Hr0 & Hb & Hl & Hf & Hst & Hrb) Hr.
  rewrite Hr in Hr0. inversion Hr0; subst row0; clear Hr0.
  unfold mysql_stmt_fetch_, next_rc, bind, modify, get. simpl.
  destruct (replies (server s)) as [|reply rest] eqn:Hrep.
  - exists (log mysql_stmt_fetch s), row. split; [reflexivity|].
    split; [by exists row|]. repeat (split; [done|]).
    intros; discriminate.
  - simpl. destruct (result_bind (server s)) as [a|] eqn:Hbound.
    + rewrite (Hrb a eq_refl).
      unfold load, store, bind, get. simpl. rewrite Hr. simpl. rewrite Hr.
      simpl. eexists. eexists. split; [reflexivity|].
      split.
      { eexists. simpl. split; [apply lookup_insert_eq|]. simpl.
        split; [done|]. split; [by rewrite overwrite_length|].
        split; [exact Hf|]. split; [exact Hst|].
        intros a' Ha'. congruence. }
      simpl. split; [apply lookup_insert_eq|]. simpl.
      split; [reflexivity|]. split; [reflexivity|].
      intros reply' rest' i col _ [= <- <-] Hcol Hi.
      apply overwrite_lookup; [|lia].
      by rewrite list_lookup_fmap, Hcol.
    + exists (set_server
                {| param_count := param_count (server s);
                   field_count := field_count (server s);
                   bind_param_rc := bind_param_rc (server s);
                   execute_rc := execute_rc (server s);
                   bind_result_rc := bind_result_rc (server s);
                   result_bind := None; replies := rest;
                   current := fetch_columns reply |}
                (log mysql_stmt_fetch s)), row.
      split; [reflexivity|]. split.
      { exists row. simpl. repeat (split; [done|]). intros; discriminate. }
      repeat (split; [done|]). intros; discriminate.
Qed.

(** On a fetchable handle, when [mysql_stmt_fetch] returns 0 or
    [MYSQL_DATA_TRUNCATED], [caml_mysql_stmt_fetch] returns a row with one
    entry per column of the handle: [None] where the length reported for
    the column is 0, a string of exactly that length otherwise.  What
    that string holds is settled by where the column fetch writes. *)
Theorem stmt_fetch_builds_row (result : nat) (s : state) (row : row_t) :
  fetchable result s -> heap s !! result = Some row ->
  next_rc h s = 0 \/ next_rc h s = MYSQL_DATA_TRUNCATED h ->
  exists arr s' row',
    caml_mysql_stmt_fetch h result s = (Returns (Some arr), s') /\
    length arr = row_count row /\
    fetchable result s' /\
    heap s' !! result = Some row' /\
    (forall i len, row_length row' !! i = Some len ->
       exists c, arr !! i = Some c /\ entry_for s' len c) /\
    (forall reply rest i col,
       result_bind (server s) = Some result ->
       replies (server s) = reply :: rest ->
       fetch_columns reply !! i = Some col -> (i < row_count row)%nat ->
       row_length row' !! i = Some (reported_length col)).
Proof.
  intros Hfetchable Hrow Hrc.
  destruct (fetch_keeps_fetchable result s row Hfetchable Hrow)
    as (s1 & row1 & Hfetch & Hf1 & Hr1 & Hc1 & _ & Hreported).
  destruct Hf1 as (row1' & Hr1' & Hb1 & Hl1 & Hfb1 & Hst1 & Hrb1).
  rewrite Hr1 in Hr1'. inversion Hr1'; subst row1'; clear Hr1'.
  destruct (fetch_loop result (row_count row) (row_length row1)
              (row_count row) O s1 (replicate (row_count row) None) row1)
    as (arr & s' & row' & Hloop & Harr & Hr' & Hc' & Hl' & Hb' & Hfb'
        & Hst' & Hsv' & Hall);
    try done; [congruence|congruence|apply length_replicate|
               intros; lia|].
  exists arr, s', row'. split.
  { unfold caml_mysql_stmt_fetch.
    unfold bind at 1. rewrite (load_live s result row Hrow).
    cbv beta iota. unfold bind at 1. rewrite Hfetch. cbv beta iota.
    assert (negb (0 =? next_rc h s)
            && negb (MYSQL_DATA_TRUNCATED h =? next_rc h s) = false)
      as ->.
    { destruct Hrc as [-> | ->]; [reflexivity|].
      rewrite Z.eqb_refl. apply andb_false_r. }
    unfold bind at 1. rewrite Hloop. reflexivity. }
  split; [exact Harr|]. split.
  { exists row'. split; [exact Hr'|]. split; [congruence|].
    split; [congruence|]. split; [exact Hfb'|]. split; [exact Hst'|].
    intros a Ha. apply Hrb1. congruence. }
  split; [exact Hr'|]. split.
  - intros i len Hi. apply Hall; [|congruence].
    apply lookup_lt_Some in Hi. rewrite Hl' in Hi. lia.
  - intros reply rest i col Hbound Hrep Hcol Hi. rewrite Hl'.
    by eapply Hreported.
Qed.

End ColumnFacts.

(** The handle returned for the two-column statement is fetchable, and
    its first fetch has the shape [stmt_fetch_builds_row] gives. *)
Lemma executed_fetchable (junk : ascii) :
  Stmt.fetchable 2 (Samples.executed junk).
Proof.
  eexists. split; [vm_compute; reflexivity|].
  split; [reflexivity|]. split; [reflexivity|].
  split; [vm_compute; reflexivity|].
  split.
  - intros l [x Hx]. vm_compute in Hx. discriminate.
  - intros a Ha. vm_compute in Ha. congruence.
Qed.

Lemma executed_first_fetch (junk : ascii) :
  exists arr s',
    Stmt.caml_mysql_stmt_fetch Stmt.header 2 (Samples.executed junk)
    = (Returns (Some arr), s') /\
    length arr = 2%nat /\ Stmt.fetchable 2 s'.
Proof.
  assert (Hrow : is_Some (Stmt.heap (Samples.executed junk) !! 2%nat))
    by (vm_compute; eauto).
  destruct Hrow as [row Hrow].
  destruct (stmt_fetch_builds_row Stmt.header 2 (Samples.executed junk) row
              (executed_fetchable junk) Hrow)
    as (arr & s' & row' & Hrun & Hlen & Hf & _).
  - right. reflexivity.
  - exists arr, s'. split; [exact Hrun|]. split; [|exact Hf].
    rewrite Hlen. vm_compute in Hrow. by inversion Hrow.
Qed.

(** * Further properties of the stubs *)

(** ** Iterating over a stored result *)

Section CursorFacts.

Import ResultSet Cursor.

Lemma for_loop_state {St A} (body : nat -> A -> M St A) :
  (forall i acc s, snd (body i acc s) = s) ->
  forall n i acc s, snd (for_loop n i body acc s) = s.
Proof.
  intros Hbody. induction n as [|n IH]; intros i acc s; simpl.
  - reflexivity.
  - unfold bind. specialize (Hbody i acc s).
    destruct (body i acc s) as [[acc'| |] s1]; simpl in *; subst s1;
      [apply IH|reflexivity|reflexivity].
Qed.

(** Whatever [db_fetch] does, it leaves the rows and the column count of
    the result alone. *)
Lemma db_fetch_keeps_data (r : MYSQL_RES) :
  exists r',
    snd (db_fetch (Some r)) = Some r' /\
    data r' = data r /\ field_count r' = field_count r.
Proof.
  unfold db_fetch, bind, get, mysql_num_fields.
  destruct (field_count r =? 0)%nat; [by exists r|].
  unfold mysql_fetch_row.
  destruct (data r !! data_cursor r) as [row|]; simpl.
  - match goal with
    | |- context [for_loop ?n ?i ?body ?acc ?s] =>
        assert (Hs1 : snd (for_loop n i body acc s) = s);
        [apply for_loop_state; intros j fs s0; cbv beta;
         repeat match goal with
                | |- context [match ?l !! j with _ => _ end] =>
                    destruct (l !! j)
                end; reflexivity
        |destruct (for_loop n i body acc s) as [[fields| |] s1]]
    end; simpl in Hs1; subst s1; simpl;
      eexists; (split; [reflexivity|]); simpl; auto.
  - eexists. split; [reflexivity|]. simpl. auto.
Qed.

Lemma db_to_row_keeps_data (r : MYSQL_RES) (offset : Z) :
  exists r',
    snd (db_to_row offset (Some r)) = Some r' /\
    data r' = data r /\ field_count r' = field_count r.
Proof.
  unfold db_to_row, bind, get.
  destruct ((offset <? 0) || _); simpl; eexists; (split; [reflexivity|]);
    simpl; auto.
Qed.

Lemma after_request_keeps_data (r : MYSQL_RES) (q : request) :
  exists r',
    after_request (Some r) q = Some r' /\
    data r' = data r /\ field_count r' = field_count r.
Proof.
  destruct q; [apply db_fetch_keeps_data|apply db_to_row_keeps_data].
Qed.

Lemma after_requests_keeps_data (qs : list request) :
  forall r, exists r',
    after_requests qs (Some r) = Some r' /\
    data r' = data r /\ field_count r' = field_count r.
Proof.
  induction qs as [|q qs IH]; intros r; simpl.
  - by exists r.
  - destruct (after_request_keeps_data r q) as (r1 & -> & Hd1 & Hf1).
    destruct (IH r1) as (r' & Hr' & Hd & Hf).
    exists r'. split; [exact Hr'|]. split; congruence.
Qed.

Lemma after_requests_no_handle (qs : list request) :
  after_requests qs None = None.
Proof.
  induction qs as [|q qs IH]; simpl; [reflexivity|].
  destruct q; exact IH.
Qed.

(** [k] fetches from cursor position [c]. *)
Lemma repeatedly_fetch (k : nat) :
  forall r,
    well_formed r -> field_count r <> O ->
    exists r',
      repeatedly k db_fetch (Some r) =
        (Returns
           ((Some <$> take k (drop (data_cursor r) (data r))) ++
            replicate (k - (length (data r) - data_cursor r)) None),
         Some r') /\
      data r' = data r /\ field_count r' = field_count r /\
      data_cursor r' =
        Nat.max (data_cursor r)
          (Nat.min (data_cursor r + k) (length (data r))).
Proof.
  induction k as [|k IH]; intros r Hwf Hn.
  - exists r. simpl. unfold ret.
    repeat split. lia.
  - simpl. unfold bind at 1.
    destruct (data r !! data_cursor r) as [row|] eqn:Hrow.
    + assert (Hlen : length row = field_count r).
      { unfold well_formed in Hwf. rewrite Forall_lookup in Hwf.
        exact (Hwf _ _ Hrow). }
      rewrite (db_fetch_row r row Hn Hrow Hlen).
      set (r1 := {| field_count := field_count r; data := data r;
                    data_cursor := S (data_cursor r);
                    current_row := Some row |}).
      destruct (IH r1) as (r' & Hrun & Hd & Hf & Hc); [exact Hwf|exact Hn|].
      unfold bind at 1. rewrite Hrun. unfold ret.
      exists r'. subst r1.
      cbn [data_cursor data field_count current_row] in *.
      assert (data_cursor r < length (data r))%nat
        by (by eapply lookup_lt_Some).
      split.
      * f_equal. f_equal. rewrite (drop_S _ _ _ Hrow).
        rewrite firstn_cons, fmap_cons. simpl app.
        f_equal. f_equal. f_equal. lia.
      * split; [exact Hd|]. split; [exact Hf|]. rewrite Hc.
        lia.
    + apply lookup_ge_None in Hrow.
      rewrite (db_fetch_exhausted r Hn Hrow).
      set (r1 := {| field_count := field_count r; data := data r;
                    data_cursor := data_cursor r;
                    current_row := None |}).
      destruct (IH r1) as (r' & Hrun & Hd & Hf & Hc); [exact Hwf|exact Hn|].
      unfold bind at 1. rewrite Hrun. unfold ret.
      exists r'. subst r1.
      cbn [data_cursor data field_count current_row] in *.
      split.
      * f_equal. f_equal. rewrite drop_ge by lia. rewrite !take_nil.
        rewrite !fmap_nil, !app_nil_l. replace (k - (length (data r) - data_cursor r))%nat
          with k by lia.
        replace (S k - (length (data r) - data_cursor r))%nat
          with (S k) by lia.
        reflexivity.
      * split; [exact Hd|]. split; [exact Hf|]. rewrite Hc. lia.
Qed.

End CursorFacts.

(** X1.  From a fresh cursor, successive [db_fetch] calls on a stored
    result with N rows return the N rows in order, each as [Some], every
    later call returns [None], and the cursor ends on N. *)
Theorem db_fetch_enumerates_rows (r : ResultSet.MYSQL_RES) (extra : nat) :
  ResultSet.well_formed r ->
  ResultSet.field_count r <> O ->
  ResultSet.data_cursor r = O ->
  exists r',
    Cursor.repeatedly (length (ResultSet.data r) + extra)
      ResultSet.db_fetch (Some r)
    = (Returns ((Some <$> ResultSet.data r) ++ replicate extra None),
       Some r') /\
    ResultSet.data_cursor r' = length (ResultSet.data r) /\
    ResultSet.data r' = ResultSet.data r.
Proof.
  intros Hwf Hn Hc.
  destruct (repeatedly_fetch (length (ResultSet.data r) + extra) r Hwf Hn)
    as (r' & Hrun & Hd & _ & Hcur).
  exists r'. rewrite Hc in *. rewrite drop_0, Nat.sub_0_r in Hrun.
  split; [|split; [rewrite Hcur; lia|exact Hd]].
  rewrite Hrun. rewrite take_ge by lia.
  replace (length (ResultSet.data r) + extra - length (ResultSet.data r))%nat
    with extra by lia.
  reflexivity.
Qed.

Lemma db_fetch_enumerates_rows_witness :
  ResultSet.well_formed Samples.two_rows /\
  ResultSet.field_count Samples.two_rows <> O /\
  ResultSet.data_cursor Samples.two_rows = O /\
  fst (Cursor.repeatedly 3 ResultSet.db_fetch (Some Samples.two_rows))
  = Returns [Some [Some "1"; None]; Some [Some "2"; Some "two"]; None].
Proof.
  assert (Hwf : ResultSet.well_formed Samples.two_rows)
    by (repeat constructor).
  assert (Hn : ResultSet.field_count Samples.two_rows <> O)
    by (simpl; lia).
  split; [exact Hwf|]. split; [exact Hn|]. split; [reflexivity|].
  destruct (db_fetch_enumerates_rows Samples.two_rows 1 Hwf Hn eq_refl)
    as (r' & Hrun & _).
  etransitivity; [exact (f_equal fst Hrun)|reflexivity].
Defined.

(** X2.  On a stored result with N rows, [db_to_row k] followed by
    [db_fetch] returns row k, for every 0 <= k < N, and leaves the cursor
    on k + 1. *)
Theorem db_to_row_then_fetch (r : ResultSet.MYSQL_RES) (k : Z) :
  ResultSet.well_formed r ->
  ResultSet.field_count r <> O ->
  ResultSet.mysql_num_rows r < 2 ^ 63 ->
  0 <= k < ResultSet.mysql_num_rows r ->
  exists row r',
    ResultSet.data r !! Z.to_nat k = Some row /\
    (ResultSet.db_to_row k ;; ResultSet.db_fetch)%stub (Some r)
    = (Returns (Some row), Some r') /\
    ResultSet.data_cursor r' = S (Z.to_nat k) /\
    ResultSet.data r' = ResultSet.data r.
Proof.
  intros Hwf Hn HN Hk.
  destruct (lookup_lt_is_Some_2 (ResultSet.data r) (Z.to_nat k))
    as [row Hrow].
  { unfold ResultSet.mysql_num_rows in Hk. lia. }
  assert (Hlen : length row = ResultSet.field_count r).
  { unfold ResultSet.well_formed in Hwf. rewrite Forall_lookup in Hwf.
    exact (Hwf _ _ Hrow). }
  destruct (db_to_row_range r k HN) as (Hin & _).
  exists row. eexists. split; [exact Hrow|].
  unfold bind at 1. rewrite (Hin Hk).
  split; [by apply db_fetch_row|]. simpl. auto.
Qed.

Lemma db_to_row_then_fetch_witness :
  ResultSet.well_formed Samples.two_rows /\
  ResultSet.field_count Samples.two_rows <> O /\
  ResultSet.mysql_num_rows Samples.two_rows < 2 ^ 63 /\
  0 <= 1 < ResultSet.mysql_num_rows Samples.two_rows /\
  fst ((ResultSet.db_to_row 1 ;; ResultSet.db_fetch)%stub
         (Some Samples.two_rows))
  = Returns (Some [Some "2"; Some "two"]).
Proof.
  assert (Hwf : ResultSet.well_formed Samples.two_rows)
    by (repeat constructor).
  assert (Hn : ResultSet.field_count Samples.two_rows <> O)
    by (simpl; lia).
  assert (HN : ResultSet.mysql_num_rows Samples.two_rows < 2 ^ 63)
    by (vm_compute; reflexivity).
  assert (Hk : 0 <= 1 < ResultSet.mysql_num_rows Samples.two_rows)
    by (vm_compute; split; [discriminate|reflexivity]).
  split; [exact Hwf|]. split; [exact Hn|]. split; [exact HN|].
  split; [exact Hk|].
  destruct (db_to_row_then_fetch Samples.two_rows 1 Hwf Hn HN Hk)
    as (row & r' & Hrow & Hrun & _).
  rewrite Hrun. simpl in Hrow. by inversion Hrow.
Defined.

(** X3.  The row count and the column count of a result are fixed:
    after any sequence of [db_fetch] and [db_to_row] calls, whatever each
    returned or raised, [db_size] and [db_fields] answer as before, a
    result with a handle still has it with the same rows, and a result
    without a handle still has none. *)
Theorem counts_fixed_by_requests
    (qs : list Cursor.request) (st : option ResultSet.MYSQL_RES) :
  let st' := Cursor.after_requests qs st in
  fst (ResultSet.db_size st') = fst (ResultSet.db_size st) /\
  fst (ResultSet.db_fields st') = fst (ResultSet.db_fields st) /\
  match st with
  | Some r =>
      exists r', st' = Some r' /\
                 ResultSet.data r' = ResultSet.data r /\
                 (ResultSet.well_formed r -> ResultSet.well_formed r')
  | None => st' = None
  end.
Proof.
  destruct st as [r|]; simpl.
  - destruct (after_requests_keeps_data qs r) as (r' & -> & Hd & Hf).
    unfold ResultSet.db_size, ResultSet.db_fields, bind, get, ret,
      ResultSet.mysql_num_rows, ResultSet.mysql_num_fields. simpl.
    rewrite Hd, Hf. split; [reflexivity|]. split; [reflexivity|].
    exists r'. split; [reflexivity|]. split; [exact Hd|].
    unfold ResultSet.well_formed. by rewrite Hd, Hf.
  - rewrite after_requests_no_handle. auto.
Qed.

(** ** Column descriptors *)

Section FieldFacts.

Import Fields.

Variable ft : TypeMapper.field_types.

(** [make_field] always has a block to return, and the block copies the
    field's name, table and default whole. *)
Lemma field_of_total (f : MYSQL_FIELD) :
  exists d,
    field_of ft f = Some d /\
    f_name d = name f /\ f_table d = table f /\ f_def d = def f /\
    TypeMapper.type2dbty ft (type f) = Some (f_ty d) /\
    f_max_length d = Val_long (max_length f) /\
    f_flags d = Val_long (flags f) /\
    f_decimals d = Val_long (decimals f).
Proof.
  unfold field_of.
  destruct (scan_terminated (TypeMapper.entries ft) TypeMapper.UNKNOWN_TY
              (type f)) as [t Ht].
  change (TypeMapper.type2dbty ft (type f) = Some t) in Ht. rewrite Ht.
  eexists. split; [reflexivity|]. simpl.
  split; [reflexivity|].
  split; [destruct (table f); simpl; unfold strlen;
          [by rewrite substring_whole|reflexivity]|].
  split; [destruct (def f); simpl; unfold strlen;
          [by rewrite substring_whole|reflexivity]|].
  auto.
Qed.

Lemma make_field_runs {St} (f : MYSQL_FIELD) (d : dbfield) (s : St) :
  field_of ft f = Some d -> make_field ft f s = (Returns d, s).
Proof. intros H. unfold make_field. by rewrite H. Qed.

Lemma fields_described (fs : list MYSQL_FIELD) :
  exists ds, Forall2 (fun f d => field_of ft f = Some d) fs ds.
Proof.
  induction fs as [|f fs [ds IH]]; [by exists []|].
  destruct (field_of_total f) as (d & Hd & _).
  exists (d :: ds). by constructor.
Qed.

Lemma db_fetch_fields_array (r : result) (ds : list dbfield) :
  well_formed r -> ResultSet.field_count (res r) <> O ->
  Forall2 (fun f d => field_of ft f = Some d) (fields r) ds ->
  db_fetch_fields ft (Some r) = (Returns (Some (Some <$> ds)), Some r).
Proof.
  intros Hwf Hn Hds.
  assert (Hlen := Forall2_length _ _ _ Hds).
  unfold db_fetch_fields, bind at 1, get, ResultSet.mysql_num_fields.
  destruct (Nat.eqb_spec (ResultSet.field_count (res r)) 0);
    [contradiction|].
  unfold bind. rewrite (for_loop_store (Some <$> ds)).
  - reflexivity.
  - intros i v acc Hv. apply list_lookup_fmap_Some in Hv as (d & -> & Hd).
    destruct (Forall2_lookup_r _ _ _ _ _ Hds Hd) as (f & Hf & Hfd).
    rewrite Hf. by rewrite (make_field_runs f d).
  - rewrite length_fmap. unfold well_formed in Hwf. lia.
  - unfold ResultSet.alloc_tuple. rewrite length_replicate, length_fmap.
    unfold well_formed in Hwf. lia.
Qed.

Lemma db_fetch_field_dir_runs (r : result) (i : nat) (f : MYSQL_FIELD)
    (d : dbfield) :
  Z.of_nat i < 2 ^ 32 ->
  fields r !! i = Some f -> field_of ft f = Some d ->
  db_fetch_field_dir ft (Z.of_nat i) (Some r) = (Returns (Some d), Some r).
Proof.
  intros Hi Hf Hd.
  unfold db_fetch_field_dir, bind at 1, get, mysql_fetch_field_direct.
  rewrite Z.mod_small by lia. rewrite Nat2Z.id, Hf.
  unfold bind. by rewrite (make_field_runs f d).
Qed.

(** One call of [db_fetch_field] with the cursor on a column, and with
    the cursor past the last one. *)
Lemma db_fetch_field_next (r : result) (f : MYSQL_FIELD) (d : dbfield) :
  well_formed r ->
  fields r !! current_field r = Some f -> field_of ft f = Some d ->
  db_fetch_field ft (Some r) =
    (Returns (Some d),
     Some {| res := res r; fields := fields r;
             current_field := S (current_field r) |}).
Proof.
  intros Hwf Hf Hd.
  assert (current_field r < ResultSet.field_count (res r))%nat.
  { apply lookup_lt_Some in Hf. unfold well_formed in Hwf. lia. }
  unfold db_fetch_field, bind at 1, get.
  unfold bind at 1, on_result, mysql_fetch_field, bind at 1, get.
  destruct (Nat.leb_spec (ResultSet.field_count (res r))
              (current_field r)); [lia|].
  rewrite Hf. unfold bind, put, ret. by rewrite (make_field_runs f d).
Qed.

Lemma db_fetch_field_done (r : result) :
  (ResultSet.field_count (res r) <= current_field r)%nat ->
  db_fetch_field ft (Some r) = (Returns None, Some r).
Proof.
  intros Hdone.
  unfold db_fetch_field, bind at 1, get.
  unfold bind at 1, on_result, mysql_fetch_field, bind at 1, get.
  destruct (Nat.leb_spec (ResultSet.field_count (res r))
              (current_field r)); [reflexivity|lia].
Qed.

Lemma repeatedly_fetch_field (ds : list dbfield) (k : nat) :
  forall r,
    well_formed r ->
    Forall2 (fun f d => field_of ft f = Some d) (fields r) ds ->
    exists r',
      Cursor.repeatedly k (db_fetch_field ft) (Some r) =
        (Returns
           ((Some <$> take k (drop (current_field r) ds)) ++
            replicate (k - (length ds - current_field r)) None),
         Some r') /\
      res r' = res r /\ fields r' = fields r.
Proof.
  induction k as [|k IH]; intros r Hwf Hds.
  - exists r. simpl. unfold ret. auto.
  - assert (Hlen := Forall2_length _ _ _ Hds).
    simpl. unfold bind at 1.
    destruct (ds !! current_field r) as [d|] eqn:Hd.
    + destruct (Forall2_lookup_r _ _ _ _ _ Hds Hd) as (f & Hf & Hfd).
      rewrite (db_fetch_field_next r f d Hwf Hf Hfd).
      destruct (IH {| res := res r; fields := fields r;
                      current_field := S (current_field r) |})
        as (r' & Hrun & Hres & Hfs); [exact Hwf|exact Hds|].
      unfold bind at 1. rewrite Hrun. unfold ret.
      exists r'. cbn [res fields current_field] in *.
      assert (current_field r < length ds)%nat
        by (by eapply lookup_lt_Some).
      split; [|auto].
      f_equal. f_equal. rewrite (drop_S _ _ _ Hd).
      rewrite firstn_cons, fmap_cons. simpl app.
      f_equal. f_equal. f_equal. lia.
    + apply lookup_ge_None in Hd.
      rewrite (db_fetch_field_done r)
        by (unfold well_formed in Hwf; lia).
      destruct (IH r) as (r' & Hrun & Hres & Hfs); [exact Hwf|exact Hds|].
      unfold bind at 1. rewrite Hrun. unfold ret.
      exists r'. split; [|auto].
      f_equal. f_equal. rewrite drop_ge by lia. rewrite !take_nil.
      rewrite !fmap_nil, !app_nil_l.
      replace (k - (length ds - current_field r))%nat with k by lia.
      replace (S k - (length ds - current_field r))%nat with (S k) by lia.
      reflexivity.
Qed.

End FieldFacts.

(** X4.  On a result with a handle and n > 0 columns, [db_fetch_fields]
    returns an array of n initialised descriptors and leaves the result
    untouched; cell i is what [db_fetch_field_dir i] returns, and it
    carries the name, table and default of column i whole and the tag
    [type2dbty] gives its wire type.  With zero columns the answer is
    [None].  Without a handle [db_fetch_field] and [db_fetch_field_dir]
    answer [None], but [db_fetch_fields] calls [mysql_num_fields] on the
    NULL handle. *)
Theorem db_fetch_fields_agrees_with_direct
    (ft : TypeMapper.field_types) (r : Fields.result) :
  Fields.well_formed r ->
  Z.of_nat (ResultSet.field_count (Fields.res r)) < 2 ^ 32 ->
  (ResultSet.field_count (Fields.res r) = O ->
   Fields.db_fetch_fields ft (Some r) = (Returns None, Some r)) /\
  (ResultSet.field_count (Fields.res r) <> O ->
   exists arr,
     Fields.db_fetch_fields ft (Some r) = (Returns (Some arr), Some r) /\
     length arr = ResultSet.field_count (Fields.res r) /\
     forall i f,
       Fields.fields r !! i = Some f ->
       exists d,
         arr !! i = Some (Some d) /\
         Fields.db_fetch_field_dir ft (Z.of_nat i) (Some r)
         = (Returns (Some d), Some r) /\
         Fields.f_name d = Fields.name f /\
         Fields.f_table d = Fields.table f /\
         Fields.f_def d = Fields.def f /\
         TypeMapper.type2dbty ft (Fields.type f) = Some (Fields.f_ty d)) /\
  Fields.db_fetch_field ft None = (Returns None, None) /\
  (forall pos, Fields.db_fetch_field_dir ft pos None = (Returns None, None)) /\
  Fields.db_fetch_fields ft None = (Undefined, None).
Proof.
  intros Hwf Hn. split; [|split; [|repeat split]].
  - intros H0. unfold Fields.db_fetch_fields, bind, get,
      ResultSet.mysql_num_fields. by rewrite H0.
  - intros Hne. destruct (fields_described ft (Fields.fields r)) as [ds Hds].
    assert (Hlen := Forall2_length _ _ _ Hds).
    exists (Some <$> ds).
    split; [by apply db_fetch_fields_array|].
    split; [rewrite length_fmap; unfold Fields.well_formed in Hwf; lia|].
    intros i f Hf.
    destruct (Forall2_lookup_l _ _ _ _ _ Hds Hf) as (d & Hd & Hfd).
    exists d. split; [by rewrite list_lookup_fmap, Hd|].
    split.
    { apply (db_fetch_field_dir_runs ft r i f d); [|done|done].
      apply lookup_lt_Some in Hf. unfold Fields.well_formed in Hwf. lia. }
    destruct (field_of_total ft f) as (d' & Hd' & Hname & Htable & Hdef
                                       & Hty & _).
    rewrite Hfd in Hd'. inversion Hd'; subst d'. auto.
Qed.

Lemma db_fetch_fields_agrees_with_direct_witness :
  Fields.well_formed Fields.sample /\
  Z.of_nat (ResultSet.field_count (Fields.res Fields.sample)) < 2 ^ 32 /\
  exists arr,
    fst (Fields.db_fetch_fields TypeMapper.mysql_com_h (Some Fields.sample))
    = Returns (Some arr) /\
    fst (Fields.db_fetch_field_dir TypeMapper.mysql_com_h 1
           (Some Fields.sample))
    = Returns (default None (arr !! 1%nat)).
Proof.
  assert (Hwf : Fields.well_formed Fields.sample) by reflexivity.
  assert (Hn : Z.of_nat (ResultSet.field_count (Fields.res Fields.sample))
               < 2 ^ 32) by (vm_compute; reflexivity).
  split; [exact Hwf|]. split; [exact Hn|].
  destruct (db_fetch_fields_agrees_with_direct TypeMapper.mysql_com_h
              Fields.sample Hwf Hn) as (_ & Hsome & _).
  destruct Hsome as (arr & Hrun & _ & Hcells); [simpl; lia|].
  exists arr. split; [by rewrite Hrun|].
  destruct (Hcells 1%nat _ eq_refl) as (d & -> & Hdir & _).
  change (Z.of_nat 1) with 1 in Hdir. by rewrite Hdir.
Defined.

(** X5.  From a fresh field cursor, successive [db_fetch_field] calls
    return the descriptors of the columns in order, the very cells of the
    array [db_fetch_fields] builds, and [None] from then on. *)
Theorem db_fetch_field_walks_columns
    (ft : TypeMapper.field_types) (r : Fields.result) (extra : nat) :
  Fields.well_formed r ->
  Fields.current_field r = O ->
  exists ds r',
    Cursor.repeatedly (ResultSet.field_count (Fields.res r) + extra)
      (Fields.db_fetch_field ft) (Some r)
    = (Returns ((Some <$> ds) ++ replicate extra None), Some r') /\
    length ds = ResultSet.field_count (Fields.res r) /\
    (ResultSet.field_count (Fields.res r) <> O ->
     Fields.db_fetch_fields ft (Some r)
     = (Returns (Some (Some <$> ds)), Some r)).
Proof.
  intros Hwf Hc.
  destruct (fields_described ft (Fields.fields r)) as [ds Hds].
  assert (Hlen := Forall2_length _ _ _ Hds).
  unfold Fields.well_formed in Hwf.
  destruct (repeatedly_fetch_field ft ds
              (ResultSet.field_count (Fields.res r) + extra) r Hwf Hds)
    as (r' & Hrun & _).
  exists ds, r'. rewrite Hc, drop_0, Nat.sub_0_r in Hrun.
  split; [|split; [lia|intros; by apply db_fetch_fields_array]].
  rewrite Hrun. rewrite take_ge by lia.
  replace (ResultSet.field_count (Fields.res r) + extra - length ds)%nat
    with extra by lia.
  reflexivity.
Qed.

Lemma db_fetch_field_walks_columns_witness :
  Fields.well_formed Fields.sample /\
  Fields.current_field Fields.sample = O /\
  exists d1 d2,
    fst (Cursor.repeatedly 3 (Fields.db_fetch_field TypeMapper.mysql_com_h)
           (Some Fields.sample))
    = Returns [Some d1; Some d2; None] /\
    Fields.f_ty d1 = TypeMapper.INT_TY /\
    Fields.f_ty d2 = TypeMapper.STRING_TY.
Proof.
  assert (Hwf : Fields.well_formed Fields.sample) by reflexivity.
  split; [exact Hwf|]. split; [reflexivity|].
  destruct (db_fetch_field_walks_columns TypeMapper.mysql_com_h
              Fields.sample 1 Hwf eq_refl) as (ds & r' & Hrun & _).
  pose proof (f_equal fst Hrun) as Hfst. vm_compute in Hfst.
  destruct ds as [|d1 [|d2 [|d3 ds]]]; try discriminate.
  inversion Hfst; subst. do 2 eexists.
  split; [vm_compute; reflexivity|]. split; reflexivity.
Defined.

(** ** The life of a connection *)

Section LifetimeFacts.

Import Connection Lifetime.

Lemma untouched_refl (s : state) : untouched s s.
Proof. repeat split. exists []. by rewrite app_nil_r. Qed.

Lemma untouched_trans (s1 s2 s3 : state) :
  untouched s1 s2 -> untouched s2 s3 -> untouched s1 s3.
Proof.
  intros (Hd1 & Hs1 & Hp1 & c1 & Ht1) (Hd2 & Hs2 & Hp2 & c2 & Ht2).
  repeat split; try congruence.
  exists (c1 ++ c2). rewrite Ht2, Ht1. by rewrite app_assoc.
Qed.

Lemma untouched_connected (s s' : state) :
  untouched s s' -> connected s -> connected s'.
Proof.
  intros (Hd & Hs & _) [Ho Hl]. unfold connected. by rewrite Hd, Hs.
Qed.

Lemma steady_ret {A} (p : Z) (a : A) : steady_at p (ret a).
Proof. intros s _ _. split; [discriminate|apply untouched_refl]. Qed.

Lemma steady_raise {A} (p : Z) (e : exn) : steady_at p (@raise _ A e).
Proof. intros s _ _. split; [discriminate|apply untouched_refl]. Qed.

Lemma steady_bind {A B} (p : Z) (m : M state A) (k : A -> M state B) :
  steady_at p m -> (forall a, steady_at p (k a)) ->
  steady_at p (bind m k).
Proof.
  intros Hm Hk s Hc Hp. destruct (Hm s Hc Hp) as [Ho Hu].
  unfold bind. destruct (m s) as [[a|e|] s1]; simpl in *.
  - destruct (Hk a s1) as [Ho' Hu'].
    + by apply (untouched_connected s).
    + destruct Hu as (Hd & _). by rewrite Hd.
    + split; [exact Ho'|]. by apply (untouched_trans s s1).
  - split; [discriminate|exact Hu].
  - contradiction.
Qed.

Lemma steady_get {A} (p : Z) (k : state -> M state A) :
  (forall s0, connected s0 -> DBDmysql (dbd s0) = p -> steady_at p (k s0)) ->
  steady_at p (bind get k).
Proof. intros Hk s Hc Hp. unfold bind, get. by apply Hk. Qed.

Lemma steady_log {A} (p : Z) (c : native_call) (q : Z) (m : M state A) :
  steady_at p m -> steady_at p (bind (modify (log c q)) (fun _ => m)).
Proof.
  intros Hm s Hc Hp. unfold bind, modify.
  destruct (Hm (log c q s)) as [Ho Hu]; [exact Hc|exact Hp|].
  split; [exact Ho|].
  apply (untouched_trans s (log c q s)); [|exact Hu].
  repeat split. by eexists.
Qed.

Lemma steady_native (p : Z) (c : native_call) : steady_at p (native c p).
Proof.
  intros s [Ho Hl] Hp. unfold native, bind, modify, get. simpl.
  rewrite Hp in Hl. destruct (decide _); [|contradiction]. simpl.
  split; [discriminate|]. repeat split. by eexists.
Qed.

Lemma steady_check (p : Z) (name : string) : steady_at p (check_dbd name).
Proof.
  intros s [Ho Hl] Hp. rewrite check_dbd_open by done.
  split; [discriminate|apply untouched_refl].
Qed.

(** The stubs of the shape "check, call, raise on a non-zero code". *)
Lemma steady_checked_call {A} (p : Z) (name : string) (c : native_call)
    (k : state -> MYSQL -> M state A) :
  (forall s0 m, DBDmysql (dbd s0) = p -> steady_at p (k s0 m)) ->
  steady_at p
    (check_dbd name ;; s <- get ;;
     m <- native c (DBDmysql (dbd s)) ;; k s m).
Proof.
  intros Hk. apply steady_bind; [apply steady_check|intros _].
  apply steady_get. intros s0 _ Hp. rewrite Hp.
  apply steady_bind; [apply steady_native|intros m]. by apply Hk.
Qed.

Lemma steady_failure {A} (p : Z) (s0 : state) (fmt : string) :
  DBDmysql (dbd s0) = p ->
  steady_at p
    (e <- native mysql_error (DBDmysql (dbd s0)) ;;
     @mysqlfailmsg _ A fmt [error_arg e]).
Proof.
  intros Hp. rewrite Hp.
  apply steady_bind; [apply steady_native|intros e]. apply steady_raise.
Qed.

Lemma steady_unchecked_call {A} (p : Z) (c : native_call)
    (k : MYSQL -> M state A) :
  (forall m, steady_at p (k m)) ->
  steady_at p (s <- get ;; m <- native c (DBDmysql (dbd s)) ;; k m).
Proof.
  intros Hk. apply steady_get. intros s0 _ Hp. rewrite Hp.
  apply steady_bind; [apply steady_native|exact Hk].
Qed.

Lemma steady_run (p : Z) (op : operation) :
  op <> Disconnect -> (forall pattern, op <> List_dbs pattern) ->
  steady_at p (run op).
Proof.
  intros Hnd Hnl.
  destruct op; try contradiction; unfold run, discard.
  - (* change_user *)
    apply steady_checked_call. intros s0 m Hp.
    destruct (negb _); [by apply steady_failure|apply steady_ret].
  - exfalso. by eapply Hnl.
  - (* select_db *)
    apply steady_checked_call. intros s0 m Hp.
    destruct (negb _); [by apply steady_failure|apply steady_ret].
  - (* ping *)
    apply steady_checked_call. intros s0 m Hp.
    destruct (negb _); [by apply steady_failure|apply steady_ret].
  - (* exec *)
    apply steady_bind; [|intros; apply steady_ret].
    apply steady_checked_call. intros s0 m Hp. cbv zeta.
    destruct (negb _); [by apply steady_failure|].
    rewrite Hp. apply steady_bind; [apply steady_native|intros].
    apply steady_ret.
  - (* status *)
    apply steady_bind; [|intros; apply steady_ret].
    apply steady_checked_call. intros. apply steady_ret.
  - (* errmsg *)
    apply steady_bind; [|intros; apply steady_ret].
    apply steady_checked_call. intros. apply steady_ret.
  - apply steady_bind; [|intros; apply steady_ret].
    apply steady_unchecked_call. intros. apply steady_ret.
  - apply steady_bind; [|intros; apply steady_ret].
    apply steady_unchecked_call. intros. apply steady_ret.
  - apply steady_bind; [|intros; apply steady_ret].
    apply steady_unchecked_call. intros. apply steady_ret.
  - apply steady_bind; [|intros; apply steady_ret].
    apply steady_unchecked_call. intros. apply steady_ret.
  - apply steady_bind; [|intros; apply steady_ret].
    apply steady_unchecked_call. intros. apply steady_ret.
  - (* prepare *)
    apply steady_bind; [|intros; apply steady_ret].
    apply steady_checked_call. intros s0 m Hp.
    destruct (stmt_init_result m) as [stmt|]; [|apply steady_raise].
    apply steady_log.
    destruct (negb _); [apply steady_raise|apply steady_ret].
Qed.

End LifetimeFacts.

(** X6.  On an open connection every stub but [db_disconnect] (and
    [db_list_dbs], treated apart) has defined behaviour and leaves the
    connection as it was, whether it returns or raises: same block, same
    session, still open; only the trace of library calls grows.  A failed
    ping or query does not close the connection. *)
Theorem operations_keep_connection_open
    (op : Connection.operation) (s : Connection.state) :
  op <> Connection.Disconnect ->
  (forall pattern, op <> Connection.List_dbs pattern) ->
  Connection.connected s ->
  fst (Connection.run op s) <> Undefined /\
  Lifetime.untouched s (snd (Connection.run op s)) /\
  Connection.connected (snd (Connection.run op s)).
Proof.
  intros Hnd Hnl Hc.
  destruct (steady_run (Connection.DBDmysql (Connection.dbd s)) op Hnd Hnl
              s Hc eq_refl) as [Ho Hu].
  split; [exact Ho|]. split; [exact Hu|].
  by apply (untouched_connected s).
Qed.

Lemma operations_keep_connection_open_witness :
  Connection.Ping <> Connection.Disconnect /\
  (forall pattern, Connection.Ping <> Connection.List_dbs pattern) /\
  Connection.connected Lifetime.listing_connection /\
  fst (Connection.run Connection.Ping Lifetime.listing_connection)
  = Raises (Mysql_error "Mysql.ping: MySQL server has gone away") /\
  Connection.connected
    (snd (Connection.run Connection.Ping Lifetime.listing_connection)).
Proof.
  assert (H1 : Connection.Ping <> Connection.Disconnect) by discriminate.
  assert (H2 : forall pattern,
             Connection.Ping <> Connection.List_dbs pattern)
    by discriminate.
  assert (H3 : Connection.connected Lifetime.listing_connection)
    by (split; reflexivity).
  split; [exact H1|]. split; [exact H2|]. split; [exact H3|].
  split; [reflexivity|].
  exact (proj2 (proj2 (operations_keep_connection_open Connection.Ping
                         Lifetime.listing_connection H1 H2 H3))).
Defined.



Section CallFacts.

Import Connection Lifetime.

(** A stub of the shape "check, call, raise the server's text on a
    non-zero code, otherwise return": its two outcomes on an open
    connection. *)
Lemma checked_call_outcomes (name prefix : string) (c : native_call)
    (rc : MYSQL -> Z) (s : state) :
  connected s ->
  let p := DBDmysql (dbd s) in
  let stub :=
    (check_dbd name ;; s <- get ;;
     m <- native c (DBDmysql (dbd s)) ;;
     if negb (rc m =? 0)
     then e <- native mysql_error (DBDmysql (dbd s)) ;;
          mysqlfailmsg (String.append prefix "%s") [error_arg e]
     else ret tt)%stub in
  (forall text : string,
     format (String.append prefix "%s") [Arg_s text]
     = String.append prefix text) ->
  (rc (peer s) = 0 -> stub s = (Returns tt, log c p s)) /\
  (rc (peer s) <> 0 ->
   stub s = (Raises (failure prefix (peer s)),
             log mysql_error p (log c p s))).
Proof.
  intros Hc p stub Hfmt. subst stub.
  destruct Hc as [Ho Hl].
  assert (Hl' : session (log c p s) = Some (DBDmysql (dbd (log c p s))))
    by exact Hl.
  split; intros Hrc.
  - unfold bind at 1. rewrite check_dbd_open by done.
    unfold bind at 1. unfold get at 1.
    unfold bind at 1. rewrite native_live by done.
    destruct (Z.eqb_spec (rc (peer s)) 0); [reflexivity|contradiction].
  - unfold bind at 1. rewrite check_dbd_open by done.
    unfold bind at 1. unfold get at 1.
    unfold bind at 1. rewrite native_live by done.
    destruct (Z.eqb_spec (rc (peer s)) 0); [contradiction|].
    cbn [negb]. unfold bind at 1.
    change (DBDmysql (dbd s)) with (DBDmysql (dbd (log c p s))).
    rewrite native_live by exact Hl'.
    unfold mysqlfailmsg, raise, failure, error_arg. simpl peer.
    by rewrite Hfmt.
Qed.

Lemma substring_bounded (n : nat) (s : string) :
  (String.length (substring 0 n s) <= n)%nat.
Proof.
  revert s. induction n as [|n IH]; intros [|c s]; simpl; try lia.
  specialize (IH s). lia.
Qed.

Lemma db_exec_outcomes (sql : string) (s : state) :
  connected s ->
  let p := DBDmysql (dbd s) in
  (real_query_rc (peer s) = 0 ->
   db_exec sql s =
     (Returns (store_result (peer s)),
      log mysql_store_result p (log mysql_real_query p s))) /\
  (real_query_rc (peer s) <> 0 ->
   db_exec sql s =
     (Raises (failure "Mysql.exec: " (peer s)),
      log mysql_error p (log mysql_real_query p s))).
Proof.
  intros [Ho Hl] p.
  assert (Hl' : session (log mysql_real_query p s)
                = Some (DBDmysql (dbd (log mysql_real_query p s))))
    by exact Hl.
  unfold db_exec. cbv zeta.
  split; intros Hrc.
  - unfold bind at 1. rewrite check_dbd_open by done.
    unfold bind at 1. unfold get at 1.
    unfold bind at 1. rewrite native_live by done.
    destruct (Z.eqb_spec (real_query_rc (peer s)) 0); [|contradiction].
    cbn [negb]. unfold bind at 1.
    change (DBDmysql (dbd s))
      with (DBDmysql (dbd (log mysql_real_query p s))).
    rewrite native_live by exact Hl'. reflexivity.
  - unfold bind at 1. rewrite check_dbd_open by done.
    unfold bind at 1. unfold get at 1.
    unfold bind at 1. rewrite native_live by done.
    destruct (Z.eqb_spec (real_query_rc (peer s)) 0); [contradiction|].
    cbn [negb]. unfold bind at 1.
    change (DBDmysql (dbd s))
      with (DBDmysql (dbd (log mysql_real_query p s))).
    rewrite native_live by exact Hl'.
    unfold mysqlfailmsg, raise, failure, error_arg. simpl peer.
    cbn [format Ascii.eqb Bool.eqb]. by rewrite append_empty.
Qed.

End CallFacts.

(** X8.  On an open connection [db_ping], [db_select_db],
    [db_change_user] and [db_exec] return when the library call returns
    0 ([db_exec] then hands back what [mysql_store_result] gives, NULL
    included) and otherwise raise "Mysql.<stub>: " followed by the text
    of [mysql_error], cut to the 1023 characters that fit the message
    buffer; in both cases the library calls made are exactly the call
    itself and, on failure, [mysql_error]. *)
Theorem failed_calls_raise_server_text
    (s : Connection.state) (newdb sql : string)
    (args : Connection.connect_args) :
  Connection.connected s ->
  let p := Connection.DBDmysql (Connection.dbd s) in
  let m := Connection.peer s in
  let failed call prefix :=
    (Raises (Lifetime.failure prefix m),
     Connection.log Connection.mysql_error p (Connection.log call p s)) in
  (Connection.ping_rc m = 0 ->
   Connection.db_ping s
   = (Returns tt, Connection.log Connection.mysql_ping p s)) /\
  (Connection.ping_rc m <> 0 ->
   Connection.db_ping s = failed Connection.mysql_ping "Mysql.ping: ") /\
  (Connection.select_db_rc m = 0 ->
   Connection.db_select_db newdb s
   = (Returns tt, Connection.log Connection.mysql_select_db p s)) /\
  (Connection.select_db_rc m <> 0 ->
   Connection.db_select_db newdb s
   = failed Connection.mysql_select_db "Mysql.select_db: ") /\
  (Connection.change_user_rc m = 0 ->
   Connection.db_change_user args s
   = (Returns tt, Connection.log Connection.mysql_change_user p s)) /\
  (Connection.change_user_rc m <> 0 ->
   Connection.db_change_user args s
   = failed Connection.mysql_change_user "Mysql.change_user: ") /\
  (Connection.real_query_rc m = 0 ->
   Connection.db_exec sql s
   = (Returns (Connection.store_result m),
      Connection.log Connection.mysql_store_result p
        (Connection.log Connection.mysql_real_query p s))) /\
  (Connection.real_query_rc m <> 0 ->
   Connection.db_exec sql s
   = (Raises (Lifetime.failure "Mysql.exec: " m),
      Connection.log Connection.mysql_error p
        (Connection.log Connection.mysql_real_query p s))) /\
  (forall prefix,
     match Lifetime.failure prefix m with
     | Mysql_error msg => (String.length msg <= 1023)%nat
     | Invalid_argument _ => False
     end).
Proof.
  intros Hc p m failed.
  assert (Hfmt : forall prefix,
             (forall text,
                format (String.append prefix "%s") [Arg_s text]
                = String.append prefix (String.append text EmptyString)) ->
             forall text,
               format (String.append prefix "%s") [Arg_s text]
               = String.append prefix text).
  { intros prefix H text. by rewrite H, append_empty. }
  destruct (checked_call_outcomes "ping" "Mysql.ping: "
              Connection.mysql_ping Connection.ping_rc s Hc
              (Hfmt "Mysql.ping: " ltac:(reflexivity))) as [Hp0 Hp1].
  destruct (checked_call_outcomes "select_db" "Mysql.select_db: "
              Connection.mysql_select_db Connection.select_db_rc s Hc
              (Hfmt "Mysql.select_db: " ltac:(reflexivity))) as [Hs0 Hs1].
  destruct (checked_call_outcomes "change_user" "Mysql.change_user: "
              Connection.mysql_change_user Connection.change_user_rc s Hc
              (Hfmt "Mysql.change_user: " ltac:(reflexivity)))
    as [Hu0 Hu1].
  destruct (db_exec_outcomes sql s Hc) as [He0 He1].
  repeat (split; [assumption|]).
  intros prefix. unfold Lifetime.failure. apply substring_bounded.
Qed.

Lemma failed_calls_raise_server_text_witness :
  Connection.connected Lifetime.listing_connection /\
  fst (Connection.db_ping Lifetime.listing_connection)
  = Raises (Mysql_error "Mysql.ping: MySQL server has gone away") /\
  fst (Connection.db_exec "select 1" Lifetime.listing_connection)
  = Returns (Some Samples.two_rows).
Proof.
  assert (Hc : Connection.connected Lifetime.listing_connection)
    by (split; reflexivity).
  split; [exact Hc|].
  destruct (failed_calls_raise_server_text Lifetime.listing_connection
              "test" "select 1" Connection.no_args Hc)
    as (_ & Hping & _ & _ & _ & _ & Hexec & _).
  split.
  - rewrite Hping; [reflexivity|]. vm_compute. discriminate.
  - rewrite Hexec; reflexivity.
Defined.

Section ListingFacts.

Import Connection Lifetime.

(** The loop of [db_list_dbs] stores the first column of each remaining
    row, in order, from index [i] on. *)
Lemma list_dbs_loop_runs (rows : list (list (option string)))
    (names : list string) :
  Forall2 (fun row name => row !! O = Some (Some name)) rows names ->
  forall i dbs (s : state),
    (i + length rows <= length dbs)%nat ->
    list_dbs_loop rows i dbs s =
      (Returns (take i dbs ++ names ++ drop (i + length rows) dbs), s).
Proof.
  induction 1 as [|row name rows names Hrow _ IH]; intros i dbs s Hlen.
  - simpl. unfold ret. rewrite Nat.add_0_r. by rewrite take_drop.
  - rewrite length_cons in Hlen. cbn [list_dbs_loop]. rewrite Hrow.
    rewrite IH by (rewrite length_insert; lia).
    f_equal. f_equal.
    rewrite (take_S_r (<[i:=name]> dbs) i name)
      by (apply list_lookup_insert_eq; lia).
    rewrite take_insert_ge by lia. rewrite drop_insert_lt by lia.
    rewrite <- app_assoc. simpl app.
    rewrite Nat.add_succ_r. reflexivity.
Qed.

End ListingFacts.

(** X9.  On an open connection [db_list_dbs] returns [None] when the
    library gives no result or a result of zero rows, and otherwise the
    array of the database names, first column of each row in order; it
    makes the one library call [mysql_list_dbs] and leaves the connection
    open. *)
Theorem db_list_dbs_names
    (s : Connection.state) (pattern : option string) :
  Connection.connected s ->
  let p := Connection.DBDmysql (Connection.dbd s) in
  let s' := Connection.log Connection.mysql_list_dbs p s in
  (Connection.list_dbs_result (Connection.peer s) = None ->
   Connection.db_list_dbs pattern s = (Returns None, s')) /\
  (forall res names,
     Connection.list_dbs_result (Connection.peer s) = Some res ->
     ResultSet.data_cursor res = O ->
     ResultSet.mysql_num_rows res < 2 ^ 31 ->
     Forall2 (fun row name => row !! O = Some (Some name))
       (ResultSet.data res) names ->
     Connection.db_list_dbs pattern s =
       (Returns (match names with [] => None | _ => Some names end), s')).
Proof.
  intros [Ho Hl] p s'. split.
  - intros Hnone. unfold Connection.db_list_dbs.
    unfold bind at 1. unfold get at 1.
    unfold bind at 1. rewrite native_live by done.
    by rewrite Hnone.
  - intros res names Hres Hcur HN Hnames.
    assert (Hlen := Forall2_length _ _ _ Hnames).
    unfold Connection.db_list_dbs.
    unfold bind at 1. unfold get at 1.
    unfold bind at 1. rewrite native_live by done.
    rewrite Hres. cbv zeta.
    assert (0 <= ResultSet.mysql_num_rows res)
      by (unfold ResultSet.mysql_num_rows; lia).
    rewrite to_int32_small by lia.
    unfold ResultSet.mysql_num_rows in *.
    destruct (Z.eqb_spec (Z.of_nat (length (ResultSet.data res))) 0)
      as [H0|H0].
    + destruct names; [reflexivity|simpl in Hlen; lia].
    + rewrite Hcur, drop_0, Nat2Z.id.
      unfold bind.
      rewrite (list_dbs_loop_runs _ names Hnames)
        by (rewrite length_replicate; lia).
      rewrite take_0, drop_ge by (rewrite length_replicate; lia).
      rewrite app_nil_r. simpl.
      destruct names; [simpl in Hlen; lia|reflexivity].
Qed.

Lemma db_list_dbs_names_witness :
  Connection.connected Lifetime.listing_connection /\
  fst (Connection.db_list_dbs None Lifetime.listing_connection)
  = Returns (Some ["mysql"; "test"]).
Proof.
  assert (Hc : Connection.connected Lifetime.listing_connection)
    by (split; reflexivity).
  split; [exact Hc|].
  destruct (db_list_dbs_names Lifetime.listing_connection None Hc)
    as [_ Hsome].
  rewrite (Hsome _ ["mysql"; "test"] eq_refl eq_refl);
    [reflexivity|vm_compute; reflexivity|repeat constructor].
Defined.

(** X10.  The session of an open connection is closed exactly once:
    [db_disconnect] calls [mysql_close] and clears the open flag, after
    which the finalizer [conn_finalize] does nothing; on a connection
    that was never disconnected the finalizer makes the one
    [mysql_close] call. *)
Theorem session_closed_once (s : Connection.state) :
  Connection.connected s ->
  let p := Connection.DBDmysql (Connection.dbd s) in
  exists s1 s2,
    Connection.db_disconnect s = (Returns tt, s1) /\
    Connection.conn_finalize s1 = (Returns tt, s1) /\
    Connection.trace s1 = Connection.trace s ++ [(Connection.mysql_close, p)] /\
    Connection.conn_finalize s = (Returns tt, s2) /\
    Connection.trace s2 = Connection.trace s ++ [(Connection.mysql_close, p)] /\
    Connection.session s1 = None /\ Connection.session s2 = None.
Proof.
  intros Hc p. destruct Hc as [Ho Hl].
  eexists.
  exists (Connection.set_session None
            (Connection.log Connection.mysql_close p s)).
  split; [by apply db_disconnect_open|].
  split; [reflexivity|]. split; [reflexivity|].
  split; [|by repeat split].
  unfold Connection.conn_finalize.
  unfold bind at 1. unfold get at 1. rewrite Ho.
  unfold bind at 1. rewrite native_live by done.
  reflexivity.
Qed.

Lemma session_closed_once_witness :
  Connection.connected Samples.open_connection /\
  Connection.conn_finalize Samples.closed_connection
  = (Returns tt, Samples.closed_connection) /\
  Connection.trace Samples.closed_connection
  = [(Connection.mysql_init, 0); (Connection.mysql_real_connect, 4096);
     (Connection.mysql_close, 4096)].
Proof.
  assert (Hc : Connection.connected Samples.open_connection)
    by (split; reflexivity).
  split; [exact Hc|].
  destruct (session_closed_once Samples.open_connection Hc)
    as (s1 & s2 & Hd & Hfin & _).
  assert (s1 = Samples.closed_connection) as ->.
  { unfold Samples.closed_connection. by rewrite Hd. }
  split; [exact Hfin|reflexivity].
Defined.

(** X11.  [db_affected] and [db_insert_id] hand the library's unsigned
    64-bit count over as a signed 64-bit integer: a count below 2^63 is
    returned as it is, and the all-ones value the library uses to report
    an error comes out as -1. *)
Theorem counts_as_int64 (s : Connection.state) :
  Connection.connected s ->
  0 <= Connection.affected_rows (Connection.peer s) < 2 ^ 64 ->
  0 <= Connection.insert_id (Connection.peer s) < 2 ^ 64 ->
  exists a i,
    fst (Connection.db_affected s) = Returns a /\
    fst (Connection.db_insert_id s) = Returns i /\
    - 2 ^ 63 <= a < 2 ^ 63 /\ - 2 ^ 63 <= i < 2 ^ 63 /\
    a mod 2 ^ 64 = Connection.affected_rows (Connection.peer s) /\
    i mod 2 ^ 64 = Connection.insert_id (Connection.peer s) /\
    (Connection.affected_rows (Connection.peer s) < 2 ^ 63 ->
     a = Connection.affected_rows (Connection.peer s)) /\
    (Connection.affected_rows (Connection.peer s) = 2 ^ 64 - 1 -> a = -1) /\
    (Connection.insert_id (Connection.peer s) < 2 ^ 63 ->
     i = Connection.insert_id (Connection.peer s)).
Proof.
  intros [Ho Hl] Ha Hi.
  exists (to_int64 (Connection.affected_rows (Connection.peer s))),
         (to_int64 (Connection.insert_id (Connection.peer s))).
  split.
  { unfold Connection.db_affected. unfold bind at 1. unfold get at 1.
    unfold bind at 1. by rewrite native_live. }
  split.
  { unfold Connection.db_insert_id. unfold bind at 1. unfold get at 1.
    unfold bind at 1. by rewrite native_live. }
  unfold to_int64.
  set (x := Connection.affected_rows (Connection.peer s)) in *.
  set (y := Connection.insert_id (Connection.peer s)) in *.
  assert (Hx := Z.mod_pos_bound (x + 2 ^ 63) (2 ^ 64) ltac:(lia)).
  assert (Hy := Z.mod_pos_bound (y + 2 ^ 63) (2 ^ 64) ltac:(lia)).
  assert (Hxm : ((x + 2 ^ 63) mod 2 ^ 64 - 2 ^ 63) mod 2 ^ 64 = x).
  { rewrite Zminus_mod_idemp_l.
    replace (x + 2 ^ 63 - 2 ^ 63) with x by lia. apply Z.mod_small. lia. }
  assert (Hym : ((y + 2 ^ 63) mod 2 ^ 64 - 2 ^ 63) mod 2 ^ 64 = y).
  { rewrite Zminus_mod_idemp_l.
    replace (y + 2 ^ 63 - 2 ^ 63) with y by lia. apply Z.mod_small. lia. }
  split; [lia|]. split; [lia|]. split; [exact Hxm|]. split; [exact Hym|].
  split; [intros; rewrite Z.mod_small; lia|].
  split; [intros ->; reflexivity|].
  intros; rewrite Z.mod_small; lia.
Qed.

Lemma counts_as_int64_witness :
  Connection.connected Lifetime.listing_connection /\
  0 <= Connection.affected_rows
         (Connection.peer Lifetime.listing_connection) < 2 ^ 64 /\
  0 <= Connection.insert_id
         (Connection.peer Lifetime.listing_connection) < 2 ^ 64 /\
  fst (Connection.db_affected Lifetime.listing_connection) = Returns (-1) /\
  fst (Connection.db_insert_id Lifetime.listing_connection) = Returns 7.
Proof.
  assert (Hc : Connection.connected Lifetime.listing_connection)
    by (split; reflexivity).
  assert (Ha : 0 <= Connection.affected_rows
                      (Connection.peer Lifetime.listing_connection)
               < 2 ^ 64) by (vm_compute; split; [discriminate|reflexivity]).
  assert (Hi : 0 <= Connection.insert_id
                      (Connection.peer Lifetime.listing_connection)
               < 2 ^ 64) by (vm_compute; split; [discriminate|reflexivity]).
  split; [exact Hc|]. split; [exact Ha|]. split; [exact Hi|].
  destruct (counts_as_int64 Lifetime.listing_connection Hc Ha Hi)
    as (a & i & -> & -> & _ & _ & _ & _ & _ & Hminus & Hid).
  rewrite Hminus by reflexivity. rewrite Hid by (vm_compute; reflexivity).
  split; reflexivity.
Defined.

(** ** Executing a prepared statement *)

Section ExecuteCases.

Import Stmt Handles.

Lemma row_loop_inv (P : row_t -> Prop) (a n : nat)
    (step : nat -> M state unit) :
  (forall i s row,
      (i < n)%nat -> heap s !! a = Some row -> P row ->
      exists row',
        step i s = (Returns tt, set_heap (<[a := row']> (heap s)) s) /\
        P row') ->
  forall k i s row,
    (i + k = n)%nat -> heap s !! a = Some row -> P row ->
    exists row',
      for_loop k i (fun j _ => step j) tt s
      = (Returns tt, set_heap (<[a := row']> (heap s)) s) /\
      P row'.
Proof.
  intros Hstep. induction k as [|k IH]; intros i s row Hik Ha HP.
  - exists row. split; [|exact HP]. simpl. unfold ret.
    rewrite insert_id by done. by rewrite set_heap_same.
  - destruct (Hstep i s row) as (row1 & Hs1 & HP1); [lia|done|done|].
    simpl. unfold bind. rewrite Hs1.
    destruct (IH (S i) (set_heap (<[a := row1]> (heap s)) s) row1)
      as (row2 & Hs2 & HP2); [lia|apply lookup_insert_eq|done|].
    rewrite Hs2. exists row2. split; [|exact HP2].
    simpl. by rewrite insert_insert_eq.
Qed.

Lemma bind_result_unbound (a n i : nat) (s : state) (row : row_t) :
  (i < n)%nat -> heap s !! a = Some row -> unbound_row n row ->
  exists row',
    bind_result a i s = (Returns tt, set_heap (<[a := row']> (heap s)) s) /\
    unbound_row n row'.
Proof.
  intros Hi Ha (Hc & Hb & Hl & Hall).
  destruct (lookup_lt_is_Some_2 (row_bind row) i) as [b Hbi]; [lia|].
  unfold bind_result. unfold bind at 1. rewrite (load_live s a row Ha).
  rewrite Hbi. eexists. split; [by eapply store_live|].
  repeat split; simpl; [done|by rewrite length_insert|done|].
  apply Forall_insert; [exact Hall|]. by split.
Qed.

Lemma bind_result_registers (r : nat) (s : state) :
  bind_result_rc (server s) = false ->
  exists m',
    mysql_stmt_bind_result_ r s
    = (Returns false, set_server m' (log (mysql_stmt_bind_result r) s)) /\
    result_bind m' = Some r /\
    replies m' = replies (server s) /\
    field_count m' = field_count (server s).
Proof.
  intros H. unfold mysql_stmt_bind_result_, bind, modify, get. simpl.
  rewrite H. eexists. split; [reflexivity|]. simpl. auto.
Qed.

End ExecuteCases.

Section ExecuteOutcomes.

Import Stmt Handles.

(** Every way [caml_mysql_stmt_execute] can end, with what is left on the
    heap. *)
Lemma execute_cases (s : state) (stmt : Z) (params : list string) :
  Z.of_nat (length params) < 2 ^ 31 ->
  heap s !! brk s = None -> heap s !! S (brk s) = None ->
  exists o s',
    caml_mysql_stmt_execute stmt params s = (o, s') /\
    strings s' = strings s /\ next_string s' = next_string s /\
    match o with
    | Returns r =>
        r = S (brk s) /\
        Z.of_nat (length params) = param_count (server s) /\
        bind_param_rc (server s) = false /\ execute_rc (server s) = 0 /\
        exists row,
          heap s' = <[r := row]> (heap s) /\
          unbound_row (field_count (server s)) row /\
          (field_count (server s) = O -> server s' = server s) /\
          (field_count (server s) <> O ->
           result_bind (server s') = Some r /\
           replies (server s') = replies (server s) /\
           bind_result_rc (server s) = false)
    | Raises e => heap s' = heap s /\ server s' = server s
    | Undefined => False
    end /\
    (Z.of_nat (length params) = param_count (server s) ->
     bind_param_rc (server s) = false -> execute_rc (server s) = 0 ->
     (field_count (server s) <> O -> bind_result_rc (server s) = false) ->
     Forall (fun f => f = false) (take 2 (malloc_fails s)) ->
     exists r, o = Returns r).
Proof.
  intros Hlen Hfree1 Hfree2.
  destruct (execute_len params Hlen) as [H32 H64].
  set (a := brk s) in *.
  unfold caml_mysql_stmt_execute. cbv zeta.
  unfold bind at 1. rewrite param_count_read. cbv beta iota.
  rewrite H64, H32.
  destruct (Z.eqb_spec (Z.of_nat (length params)) (param_count (server s)))
    as [Hcount|Hcount]; cbn [negb].
  2:{ unfold bind at 1. rewrite param_count_read. cbv beta iota.
      unfold mysqlfailmsg, raise. do 2 eexists.
      split; [reflexivity|]. stmt_state.
      repeat split. intros; contradiction. }
  rewrite Nat2Z.id.
  destruct (decide (head (malloc_fails s) = Some true)) as [Hmf|Hmf].
  { destruct (malloc_fails s) as [|f fails] eqn:Hfails; [discriminate|].
    simpl in Hmf. inversion Hmf; subst f.
    unfold bind at 1.
    rewrite (create_row_null _ _ _ fails) by (stmt_state; exact Hfails).
    cbv beta iota. unfold mysqlfailwith, raise.
    do 2 eexists. split; [reflexivity|]. stmt_state.
    repeat split. intros _ _ _ _ Hall.
    simpl in Hall. inversion Hall. discriminate. }
  unfold bind at 1. rewrite create_row_ok by exact Hmf.
  cbv beta iota. stmt_state. fold a.
  match goal with
  | |- context [bind (for_loop _ _ _ _) _ ?st] => set (s1 := st)
  end.
  destruct (row_loop a (length params)
              (fun i => match params !! i with
                        | Some str => set_param a str (String.length str) i
                        | None => undefined
                        end)
              ltac:(intros i s0 r0 Hi Ha Hl;
                    by apply (set_param_step a params i s0 r0))
              (length params) O s1
              {| row_count := length params; row_stmt := stmt;
                 row_bind := replicate (length params) zero_bind;
                 row_length := replicate (length params) O;
                 row_error := replicate (length params) false;
                 row_is_null := replicate (length params) false |})
    as (row1 & Hloop & _);
    [lia | apply lookup_insert_eq | apply length_replicate |].
  unfold bind at 1. rewrite Hloop. cbv beta iota.
  unfold bind at 1. rewrite bind_param_read. cbv beta iota.
  subst s1. stmt_state.
  assert (Hback : delete a (<[a:=row1]>
                    (<[a:={| row_count := length params; row_stmt := stmt;
                             row_bind := replicate (length params) zero_bind;
                             row_length := replicate (length params) O;
                             row_error := replicate (length params) false;
                             row_is_null :=
                               replicate (length params) false |}]>
                       (heap s))) = heap s).
  { rewrite !delete_insert_eq. by apply delete_id. }
  destruct (bind_param_rc (server s)) eqn:Hbp.
  { unfold bind at 1.
    erewrite destroy_row_live by (stmt_state; apply lookup_insert_eq).
    cbv beta iota. unfold mysqlfailwith, raise. stmt_state.
    do 2 eexists. split; [reflexivity|]. stmt_state.
    rewrite Hback. repeat split. intros; discriminate. }
  unfold bind at 1. rewrite execute_read. cbv beta iota. stmt_state.
  destruct (Z.eqb_spec (execute_rc (server s)) 0) as [Hrc|Hrc]; cbn [negb].
  2:{ unfold bind at 1.
      erewrite destroy_row_live by (stmt_state; apply lookup_insert_eq).
      cbv beta iota. unfold mysqlfailwith, raise. stmt_state.
      do 2 eexists. split; [reflexivity|]. stmt_state.
      rewrite Hback. repeat split. intros; contradiction. }
  unfold bind at 1.
  erewrite destroy_row_live by (stmt_state; apply lookup_insert_eq).
  cbv beta iota.
  unfold bind at 1. rewrite field_count_read. cbv beta iota. stmt_state.
  rewrite Hback.
  match goal with
  | |- context [bind (create_row _ _) _ ?st] => set (s5 := st)
  end.
  assert (Hh5 : heap s5 = heap s) by reflexivity.
  assert (Hb5 : brk s5 = S a) by reflexivity.
  assert (Hsv5 : server s5 = server s) by reflexivity.
  assert (Hst5 : strings s5 = strings s) by reflexivity.
  assert (Hns5 : next_string s5 = next_string s) by reflexivity.
  assert (Hmf5 : malloc_fails s5 = tail (malloc_fails s)) by reflexivity.
  clearbody s5. clear Hloop Hback.
  destruct (decide (head (malloc_fails s5) = Some true)) as [Hmf2|Hmf2].
  { destruct (malloc_fails s5) as [|f fails] eqn:Hfails; [discriminate|].
    simpl in Hmf2. inversion Hmf2; subst f.
    unfold bind at 1. rewrite (create_row_null _ _ _ fails Hfails).
    cbv beta iota. unfold mysqlfailwith, raise.
    do 2 eexists. split; [reflexivity|]. stmt_state.
    repeat split; try congruence.
    intros _ _ _ _ Hall. exfalso.
    destruct (malloc_fails s) as [|f0 [|f1 rest]]; simpl in *;
      try discriminate.
    inversion Hmf5; subst. inversion Hall as [|? ? _ Hall']; subst.
    inversion Hall'; subst. discriminate. }
  unfold bind at 1. rewrite create_row_ok by exact Hmf2.
  cbv beta iota. rewrite Hb5, Hsv5.
  set (fc := field_count (server s)) in *.
  set (row0 := {| row_count := fc; row_stmt := stmt;
                  row_bind := replicate fc zero_bind;
                  row_length := replicate fc O;
                  row_error := replicate fc false;
                  row_is_null := replicate fc false |}).
  assert (Hrow0 : unbound_row fc row0).
  { repeat split; simpl; try apply length_replicate.
    apply Forall_replicate. by split. }
  match goal with
  | |- context [bind (if _ then _ else _) _ ?st] => set (s6 := st)
  end.
  destruct (Nat.eqb_spec fc 0) as [Hfc|Hfc].
  { do 2 eexists. split; [reflexivity|]. subst s6. stmt_state.
    split; [congruence|]. split; [congruence|]. split.
    - split; [reflexivity|]. repeat (split; [done|]).
      exists row0. split; [by rewrite Hh5|]. split; [exact Hrow0|].
      split; [intros _; reflexivity|intros; contradiction].
    - intros. by eexists. }
  destruct (row_loop_inv (unbound_row fc) (S a) fc
              (fun i => bind_result (S a) i)
              ltac:(intros i s0 r0 Hi Ha HP;
                    by apply (bind_result_unbound (S a) fc i s0 r0))
              fc O s6 row0)
    as (row2 & Hloop2 & Hrow2);
    [lia | apply lookup_insert_eq | exact Hrow0 |].
  unfold bind at 1. unfold bind at 1. rewrite Hloop2. cbv beta iota.
  destruct (bind_result_rc (server s)) eqn:Hbr.
  - unfold bind at 1. rewrite bind_result_refused by exact Hbr.
    cbv beta iota. unfold bind at 1.
    erewrite destroy_row_live by (stmt_state; apply lookup_insert_eq).
    cbv beta iota. unfold mysqlfailwith, raise.
    do 2 eexists. split; [reflexivity|]. subst s6. stmt_state.
    split; [congruence|]. split; [congruence|]. split.
    + split; [|first [exact Hsv5|reflexivity]].
      rewrite !delete_insert_eq, Hh5. by apply delete_id.
    + intros _ _ _ Hok _. specialize (Hok Hfc). discriminate.
  - destruct (bind_result_registers (S a)
                (set_heap (<[S a:=row2]> (heap s6)) s6) Hbr)
      as (m' & Hm' & Hrb & Hrep & Hfcm).
    unfold bind at 1. rewrite Hm'. cbv beta iota. unfold ret.
    do 2 eexists. split; [reflexivity|]. subst s6. stmt_state.
    split; [congruence|]. split; [congruence|]. split.
    + split; [reflexivity|]. repeat (split; [done|]).
      exists row2. split; [by rewrite insert_insert_eq, Hh5|].
      split; [exact Hrow2|]. split; [intros; contradiction|].
      intros _. split; [exact Hrb|]. split; [|reflexivity].
      rewrite Hrep. reflexivity.
    + intros. by eexists.
Qed.

End ExecuteOutcomes.







Section FetchedRows.

Import Stmt.

Variable h : mysql_h.








End FetchedRows.








(** X17.  The life of a result handle leaves nothing behind: after a
    successful [caml_mysql_stmt_execute], [stmt_result_finalize] on the
    returned handle prints "finalize", frees the handle's row and leaves
    the heap of rows exactly as it was before the execution; running the
    finalizer once more on the same handle is a double free. *)
Theorem finalize_after_execute_restores_heap
    (s : Stmt.state) (stmt : Z) (params : list string) (out : string) :
  Z.of_nat (length params) < 2 ^ 31 ->
  Stmt.heap s !! Stmt.brk s = None ->
  Stmt.heap s !! S (Stmt.brk s) = None ->
  forall r s1,
    Stmt.caml_mysql_stmt_execute stmt params s = (Returns r, s1) ->
    exists s2,
      Handles.stmt_result_finalize r (out, s1)
      = (Returns tt, (String.append out "finalize", s2)) /\
      Stmt.heap s2 = Stmt.heap s /\
      Stmt.trace s2 = Stmt.trace s1 ++ [Stmt.Free r] /\
      fst (Handles.stmt_result_finalize r
             (String.append out "finalize", s2)) = Undefined.
Proof.
  intros Hlen Hf1 Hf2 r s1 Hrun.
  destruct (execute_cases s stmt params Hlen Hf1 Hf2)
    as (o & s1' & Hrun' & _ & _ & Hout & _).
  rewrite Hrun in Hrun'. inversion Hrun'; subst o s1'; clear Hrun'.
  destruct Hout as (-> & _ & _ & _ & row & Hheap & _).
  assert (Hr : Stmt.heap s1 !! S (Stmt.brk s) = Some row)
    by (rewrite Hheap; apply lookup_insert_eq).
  unfold Handles.stmt_result_finalize.
  rewrite (destroy_row_live _ _ _ Hr).
  eexists. split; [reflexivity|]. simpl.
  split; [rewrite Hheap; by apply delete_insert_id|].
  split; [reflexivity|].
  unfold Stmt.destroy_row, bind, get. simpl.
  rewrite Hheap, delete_insert_id by done. by rewrite Hf2.
Qed.

Lemma finalize_after_execute_restores_heap_witness :
  exists s1 s2,
    Stmt.caml_mysql_stmt_execute 77 ["x"]
      (Stmt.initial Handles.one_column "?") = (Returns 2%nat, s1) /\
    Handles.stmt_result_finalize 2 (EmptyString, s1)
    = (Returns tt, ("finalize", s2)) /\
    Stmt.heap s2 = Stmt.heap (Stmt.initial Handles.one_column "?").
Proof.
  set (s := Stmt.initial Handles.one_column "?").
  assert (H1 : Z.of_nat (length ["x"]) < 2 ^ 31) by (simpl; lia).
  assert (H2 : Stmt.heap s !! Stmt.brk s = None) by reflexivity.
  assert (H3 : Stmt.heap s !! S (Stmt.brk s) = None) by reflexivity.
  destruct (Stmt.caml_mysql_stmt_execute 77 ["x"] s) as [o s1] eqn:Hrun.
  assert (o = Returns 2%nat) as ->.
  { pose proof (f_equal fst Hrun) as Hfst. vm_compute in Hfst.
    by inversion Hfst. }
  destruct (finalize_after_execute_restores_heap s 77 ["x"] EmptyString
              H1 H2 H3 _ _ Hrun)
    as (s2 & Hfin & Hheap & _).
  exists s1, s2.
  split; [reflexivity|]. split; [exact Hfin|exact Hheap].
Defined.

(** X18.  [type2dbty] returns a tag only where the table says so:
    provided the field type codes are pairwise distinct and none is -1,
    a returned tag is the one listed with the code in the table, or it
    is [UNKNOWN_TY] for a code the table does not list.  So [INT64_TY]
    is returned for [FIELD_TYPE_LONGLONG] only, [DECIMAL_TY] for
    [FIELD_TYPE_DECIMAL] only, [INT_TY] for the four integer types below
    64 bits only and [BLOB_TY] for the four blob types only. *)
Theorem type2dbty_tag_origin (ft : TypeMapper.field_types) :
  NoDup (TypeMapper.codes ft) ->
  (-1 ∉ TypeMapper.codes ft) ->
  let f := TypeMapper.type2dbty ft in
  (forall type t, f type = Some t ->
     (type, t) ∈ TypeMapper.entries ft \/
     ((type ∉ TypeMapper.codes ft) /\ t = TypeMapper.UNKNOWN_TY)) /\
  (forall type, f type = Some TypeMapper.INT64_TY ->
     type = TypeMapper.FIELD_TYPE_LONGLONG ft) /\
  (forall type, f type = Some TypeMapper.DECIMAL_TY ->
     type = TypeMapper.FIELD_TYPE_DECIMAL ft) /\
  (forall type, f type = Some TypeMapper.INT_TY ->
     type ∈ [TypeMapper.FIELD_TYPE_TINY ft; TypeMapper.FIELD_TYPE_SHORT ft;
             TypeMapper.FIELD_TYPE_LONG ft;
             TypeMapper.FIELD_TYPE_INT24 ft]) /\
  (forall type, f type = Some TypeMapper.BLOB_TY ->
     type ∈ [TypeMapper.FIELD_TYPE_TINY_BLOB ft;
             TypeMapper.FIELD_TYPE_MEDIUM_BLOB ft;
             TypeMapper.FIELD_TYPE_LONG_BLOB ft;
             TypeMapper.FIELD_TYPE_BLOB ft]).
Proof.
  intros Hd Hs f.
  assert (Horigin : forall type t, f type = Some t ->
            (type, t) ∈ TypeMapper.entries ft \/
            ((type ∉ TypeMapper.codes ft) /\ t = TypeMapper.UNKNOWN_TY)).
  { intros type t Ht.
    destruct (decide (type ∈ TypeMapper.codes ft)) as [Hin|Hout].
    - left. apply list_elem_of_fmap in Hin as ([k t'] & Hk & Hin).
      simpl in Hk. subst k.
      pose proof (entry_hit ft type t' Hd Hs Hin) as Hhit.
      unfold f in Ht. congruence.
    - right. split; [exact Hout|].
      unfold f, TypeMapper.type2dbty, TypeMapper.map in Ht.
      rewrite (scan_miss _ _ _ Hs Hout) in Ht. congruence. }
  split; [exact Horigin|].
  repeat split; intros type Ht;
    (destruct (Horigin _ _ Ht) as [Hin|[_ Hu]]; [|discriminate]);
    apply list_elem_of_In in Hin; simpl in Hin;
    repeat (destruct Hin as [Heq|Hin];
            [inversion Heq; subst;
             try reflexivity;
             repeat first [apply list_elem_of_here
                          |apply list_elem_of_further]|]);
    contradiction.
Qed.

Lemma type2dbty_tag_origin_witness :
  NoDup (TypeMapper.codes TypeMapper.mysql_com_h) /\
  (-1 ∉ TypeMapper.codes TypeMapper.mysql_com_h) /\
  (forall type,
     TypeMapper.type2dbty TypeMapper.mysql_com_h type
     = Some TypeMapper.INT64_TY -> type = 8).
Proof.
  assert (Hd : NoDup (TypeMapper.codes TypeMapper.mysql_com_h))
    by (apply (bool_decide_unpack _); vm_compute; exact I).
  assert (Hs : -1 ∉ TypeMapper.codes TypeMapper.mysql_com_h)
    by (apply (bool_decide_unpack _); vm_compute; exact I).
  split; [exact Hd|]. split; [exact Hs|].
  exact (proj1 (proj2 (type2dbty_tag_origin TypeMapper.mysql_com_h Hd Hs))).
Defined.
